(** * HubSpot relationship mapper: the reconciliation core

    A shallow embedding of the entity-resolution and metrics code of
    [src/HubSpotRelationshipMapper.js] (module [Mapper]) and of the older
    variant of the same component kept in the repository (module
    [Legacy]), followed by the properties of the specification proved or
    refuted against it.

    Modelling conventions.
    - A CSV cell parsed with [dynamicTyping] is a JavaScript primitive:
      [JsVal]. A column absent from a row reads as [VUndef].
    - Numbers are exact rationals plus [NaN]; infinities and the negative
      zero are outside the model, and no division the program performs has
      a zero divisor.
    - What the JavaScript runtime provides and the repository does not
      define (number formatting and parsing, date parsing) is a parameter:
      the class [Host]. Every general theorem holds for every host.
    - Strings are byte strings; [toLowerCase] and [trim] act on the ASCII
      letters and the ASCII white space.
    - An object used as a dictionary is an association list in insertion
      order, which is the order of [Object.keys] and [Object.entries] for
      keys that are not array indices; keys inherited from
      [Object.prototype] are not modelled.
    - A [throw] is the [Throw] outcome of the [result] monad. *)

From Stdlib Require Import List String Ascii Bool Arith ZArith QArith Qabs Qminmax.
From Stdlib Require Import DecimalString Permutation Sorted Lia Lqa.
Import ListNotations.

Set Default Proof Using "Type".

Local Close Scope Q_scope.
Local Open Scope nat_scope.
Local Open Scope string_scope.
Local Open Scope list_scope.

(** ** JavaScript numbers and primitive values *)

Inductive num : Type :=
| NaN
| Fin (q : Q).

Inductive JsVal : Type :=
| VUndef
| VNull
| VBool (b : bool)
| VNum (n : num)
| VStr (s : string).

Inductive Exn : Type :=
| TypeError
| RangeError.

Inductive result (A : Type) : Type :=
| Ok (a : A)
| Throw (e : Exn).

Arguments Ok {A} a.
Arguments Throw {A} e.

Definition bind {A B} (m : result A) (f : A -> result B) : result B :=
  match m with
  | Ok a => f a
  | Throw e => Throw e
  end.

Notation "x <- m ;; k" := (bind m (fun x => k))
  (at level 61, m at next level, right associativity).

(** [xs.forEach(f)] over a body that may throw, threading the objects the
    body mutates. *)
Fixpoint forEachM {A S} (f : S -> A -> result S) (xs : list A) (s : S) : result S :=
  match xs with
  | [] => Ok s
  | x :: xs' => s' <- f s x ;; forEachM f xs' s'
  end.

(** [xs.filter(p)] with a predicate that may throw. *)
Fixpoint filterM {A} (p : A -> result bool) (xs : list A) : result (list A) :=
  match xs with
  | [] => Ok []
  | x :: xs' =>
      b <- p x ;;
      rest <- filterM p xs' ;;
      Ok (if b then x :: rest else rest)
  end.

(** *** Arithmetic on numbers, [NaN] absorbing *)

Definition isZero (q : Q) : bool := Qeq_bool q 0%Q.

Definition numAdd (a b : num) : num :=
  match a, b with
  | Fin x, Fin y => Fin (x + y)%Q
  | _, _ => NaN
  end.

Definition numSub (a b : num) : num :=
  match a, b with
  | Fin x, Fin y => Fin (x - y)%Q
  | _, _ => NaN
  end.

Definition numMul (a b : num) : num :=
  match a, b with
  | Fin x, Fin y => Fin (x * y)%Q
  | _, _ => NaN
  end.

(** The quotient by zero is an infinity (or [NaN]) in JavaScript; it is
    [NaN] here and is never reached by the program. *)
Definition numDiv (a b : num) : num :=
  match a, b with
  | Fin x, Fin y => if isZero y then NaN else Fin (x / y)%Q
  | _, _ => NaN
  end.

(** [Math.abs]. *)
Definition Math_abs (a : num) : num :=
  match a with
  | Fin x => Fin (Qabs x)
  | NaN => NaN
  end.

(** [a > b] on numbers: false as soon as one side is [NaN]. *)
Definition numGt (a b : num) : bool :=
  match a, b with
  | Fin x, Fin y => negb (Qle_bool x y)
  | _, _ => false
  end.

(** [Math.max(a, b)]: [NaN] if either argument is. *)
Definition Math_max (a b : num) : num :=
  match a, b with
  | Fin x, Fin y => if Qle_bool x y then Fin y else Fin x
  | _, _ => NaN
  end.

(** [x || 0] for a number [x]: [NaN] and [0] are falsy. *)
Definition numOr0 (a : num) : num :=
  match a with
  | Fin x => if isZero x then Fin 0%Q else Fin x
  | NaN => Fin 0%Q
  end.

Definition ofNat (n : nat) : num := Fin (inject_Z (Z.of_nat n)).

(** *** Strings *)

Definition toLowerChar (c : ascii) : ascii :=
  let n := nat_of_ascii c in
  if ((65 <=? n) && (n <=? 90))%nat then ascii_of_nat (n + 32) else c.

Fixpoint toLowerCase (s : string) : string :=
  match s with
  | EmptyString => EmptyString
  | String c s' => String (toLowerChar c) (toLowerCase s')
  end.

Definition isWhite (c : ascii) : bool :=
  let n := nat_of_ascii c in
  ((n =? 32) || ((9 <=? n) && (n <=? 13)))%nat.

Fixpoint trimStart (s : string) : string :=
  match s with
  | EmptyString => EmptyString
  | String c s' => if isWhite c then trimStart s' else s
  end.

(** Dropping trailing white space: a suffix made of white space only
    collapses to the empty string. *)
Fixpoint trimEnd (s : string) : string :=
  match s with
  | EmptyString => EmptyString
  | String c s' =>
      match trimEnd s' with
      | EmptyString => if isWhite c then EmptyString else String c EmptyString
      | t => String c t
      end
  end.

Definition trim (s : string) : string := trimEnd (trimStart s).

(** [s.split(sep)] for a one-character separator: never the empty list. *)
Fixpoint split (sep : ascii) (s : string) : list string :=
  match s with
  | EmptyString => [EmptyString]
  | String c s' =>
      if Ascii.eqb c sep then EmptyString :: split sep s'
      else match split sep s' with
           | [] => [String c EmptyString]
           | w :: ws => String c w :: ws
           end
  end.

(** [xs.join(sep)]. *)
Fixpoint join (sep : string) (xs : list string) : string :=
  match xs with
  | [] => EmptyString
  | [x] => x
  | x :: xs' => x ++ sep ++ join sep xs'
  end.

(** [xs.slice(-n)]: the last [n] elements, all of them when there are fewer. *)
Definition sliceLast {A} (n : nat) (xs : list A) : list A :=
  skipn (List.length xs - n) xs.

Fixpoint startsWith (s p : string) {struct p} : bool :=
  match p, s with
  | EmptyString, _ => true
  | String a p', String b s' => Ascii.eqb a b && startsWith s' p'
  | String _ _, EmptyString => false
  end.

(** [s.includes(t)]. *)
Fixpoint includes (s t : string) : bool :=
  startsWith s t ||
  match s with
  | EmptyString => false
  | String _ s' => includes s' t
  end.

Fixpoint dropChars (n : nat) (s : string) : string :=
  match n, s with
  | O, _ => s
  | S n', String _ s' => dropChars n' s'
  | S _, EmptyString => EmptyString
  end.

(** [s.replace(/^www\./, '')]. *)
Definition stripWww (s : string) : string :=
  if startsWith s "www." then dropChars 4 s else s.

Definition nonEmpty (s : string) : bool :=
  match s with
  | EmptyString => false
  | String _ _ => true
  end.

(** *** The host *)

Class Host : Type := {
  (** [Number::toString] of a finite number *)
  NumberToString : Q -> string;
  (** [StringToNumber], the string case of [ToNumber] *)
  StringToNumber : string -> num;
  (** [parseFloat] of a string *)
  parseFloatString : string -> num;
  (** [parseInt] of a string *)
  parseIntString : string -> num;
  (** [Date.parse] *)
  DateParse : string -> num;
  (** the text [toISOString] prints for a valid time value *)
  DateToISOString : Z -> string
}.

Section Primitives.
Context {host : Host}.

(** Truthiness ([ToBoolean]). *)
Definition truthy (v : JsVal) : bool :=
  match v with
  | VUndef | VNull => false
  | VBool b => b
  | VNum NaN => false
  | VNum (Fin q) => negb (isZero q)
  | VStr s => nonEmpty s
  end.

(** [a || b] on values. *)
Definition jsOr (a b : JsVal) : JsVal := if truthy a then a else b.

(** [String(v)]. *)
Definition ToString (v : JsVal) : string :=
  match v with
  | VUndef => "undefined"
  | VNull => "null"
  | VBool true => "true"
  | VBool false => "false"
  | VNum NaN => "NaN"
  | VNum (Fin q) => NumberToString q
  | VStr s => s
  end.

(** [ToNumber]. *)
Definition ToNumber (v : JsVal) : num :=
  match v with
  | VUndef => NaN
  | VNull => Fin 0%Q
  | VBool true => Fin 1%Q
  | VBool false => Fin 0%Q
  | VNum n => n
  | VStr s => StringToNumber s
  end.

(** [parseFloat(v)]: the argument is converted to a string first. *)
Definition parseFloat (v : JsVal) : num := parseFloatString (ToString v).

(** [a === b]. *)
Definition strictEq (a b : JsVal) : bool :=
  match a, b with
  | VUndef, VUndef => true
  | VNull, VNull => true
  | VBool x, VBool y => Bool.eqb x y
  | VNum (Fin x), VNum (Fin y) => Qeq_bool x y
  | VStr x, VStr y => String.eqb x y
  | _, _ => false
  end.

(** [SameValueZero], the equality of [Set]: as [===] but [NaN] equals itself. *)
Definition sameValueZero (a b : JsVal) : bool :=
  match a, b with
  | VNum NaN, VNum NaN => true
  | _, _ => strictEq a b
  end.

(** [typeof v === 'string']. *)
Definition isString (v : JsVal) : bool :=
  match v with
  | VStr _ => true
  | _ => false
  end.

(** [v.toLowerCase()] for a value that is not [undefined] or [null]: only
    strings have the method, calling it on anything else is a
    [TypeError]. *)
Definition callToLowerCase (v : JsVal) : result string :=
  match v with
  | VStr s => Ok (toLowerCase s)
  | _ => Throw TypeError
  end.

(** [a + b]: concatenation as soon as one operand is a string. *)
Definition jsAdd (a b : JsVal) : JsVal :=
  match a, b with
  | VStr _, _ | _, VStr _ => VStr (ToString a ++ ToString b)
  | _, _ => VNum (numAdd (ToNumber a) (ToNumber b))
  end.

(** The time value of [new Date(v)]: a string goes through [Date.parse],
    anything else through [ToNumber]; [TimeClip] rejects what lies more
    than 8.64e15 ms from the epoch and truncates the rest. *)
Definition TimeClip (n : num) : option Z :=
  match n with
  | NaN => None
  | Fin q =>
      if Qle_bool (Qabs q) (inject_Z 8640000000000000)
      then Some (Z.quot (Qnum q) (Zpos (Qden q))) else None
  end.

Definition newDate (v : JsVal) : option Z :=
  match v with
  | VStr s => TimeClip (DateParse s)
  | _ => TimeClip (ToNumber v)
  end.

(** [d.toISOString()]: a [RangeError] on an invalid date. *)
Definition toISOString (d : option Z) : result string :=
  match d with
  | Some t => Ok (DateToISOString t)
  | None => Throw RangeError
  end.

(** [s.slice(0, n)]. *)
Fixpoint sliceTo (n : nat) (s : string) : string :=
  match n, s with
  | S n', String c s' => String c (sliceTo n' s')
  | _, _ => EmptyString
  end.

(** A semicolon-delimited field: [raw.split(';').map(trim).filter(nonempty)]
    when [raw] is a non-empty string, no segment otherwise. *)
Definition splitTags (raw : JsVal) : list string :=
  match raw with
  | VStr s => if nonEmpty s
              then filter nonEmpty (map trim (split ";" s))
              else []
  | _ => []
  end.

(** The test guarding every use of the primary-company reference:
    [v !== undefined && v !== null && String(v).trim() !== '']. *)
Definition hasReference (v : JsVal) : bool :=
  match v with
  | VUndef | VNull => false
  | _ => nonEmpty (trim (ToString v))
  end.

End Primitives.

(** ** The input records *)

Module Deal.
Record t : Type := make {
  RecordID : JsVal;
  DealName : JsVal;
  Budget : JsVal;
  Amount : JsVal;
  CampaignBrand : JsVal;
  DealStage : JsVal;
  Pipeline : JsVal;
  CloseDate : JsVal;
  CreateDate : JsVal;
  IsClosedWon : JsVal;
  AssociatedCompanyIDsPrimary : JsVal;
  AssociatedCompany : JsVal
}.
End Deal.

Module Company.
Record t : Type := make {
  RecordID : JsVal;
  CompanyName : JsVal;
  CompanyDomainName : JsVal;
  TotalRevenue : JsVal
}.
End Company.

(** Dictionaries: [o[k]], [o[k] = v] in insertion order. *)
Fixpoint lookup {V} (k : string) (o : list (string * V)) : option V :=
  match o with
  | [] => None
  | (k', v) :: o' => if String.eqb k' k then Some v else lookup k o'
  end.

Fixpoint assign {V} (k : string) (v : V) (o : list (string * V)) : list (string * V) :=
  match o with
  | [] => [(k, v)]
  | (k', v') :: o' =>
      if String.eqb k' k then (k', v) :: o' else (k', v') :: assign k v o'
  end.

Definition getOr {V} (d : V) (o : option V) : V :=
  match o with
  | Some v => v
  | None => d
  end.

(** [(o[k] || 0)] for a dictionary of numbers and for one of counters. *)
Definition numAt (o : list (string * num)) (k : string) : num :=
  match lookup k o with
  | Some n => numOr0 n
  | None => Fin 0%Q
  end.

Definition countAt (o : list (string * nat)) (k : string) : nat :=
  getOr 0 (lookup k o).

(** [o[k][j] = (o[k][j] || 0) + 1], creating [o[k]] when absent. *)
Definition bumpNested (k j : string) (o : list (string * list (string * nat)))
  : list (string * list (string * nat)) :=
  let inner := getOr [] (lookup k o) in
  assign k (assign j (S (countAt inner j)) inner) o.

(** [set.add(v)]. *)
Definition setAdd (v : JsVal) (s : list JsVal) : list JsVal :=
  if existsb (sameValueZero v) s then s else s ++ [v].

(** [xs.sort(cmp)], stable; [before y x] says that the comparator puts
    [y] strictly before [x]. *)
Fixpoint insertSorted {A} (before : A -> A -> bool) (x : A) (l : list A) : list A :=
  match l with
  | [] => [x]
  | y :: l' => if before y x then y :: insertSorted before x l' else x :: l
  end.

Definition sortStable {A} (before : A -> A -> bool) (l : list A) : list A :=
  fold_right (insertSorted before) [] l.

(** ** The component of [src/HubSpotRelationshipMapper.js] *)

Module Mapper.

Module Mapping.
Record t : Type := make {
  dealId : JsVal;
  dealName : JsVal;
  companyId : JsVal;
  companyName : JsVal;
  relationship : string;
  confidence : num;
  amount : num;
  campaignBrand : JsVal;
  dealStage : JsVal;
  pipeline : JsVal;
  closeDate : JsVal;
  createDate : JsVal;
  isClosedWon : JsVal
}.
End Mapping.

Module DomainRelationship.
Record t : Type := make {
  parentId : JsVal;
  parentName : JsVal;
  childId : JsVal;
  childName : JsVal;
  confidence : num;
  basis : string;
  domain : string;
  parentDealCount : nat;
  parentRevenue : num
}.
End DomainRelationship.

(** [{ ...company, dealCount, totalRevenue }] *)
Module WithMetrics.
Record t : Type := make {
  company : Company.t;
  dealCount : nat;
  totalRevenue : num
}.
End WithMetrics.

Record DealLine : Type := mkDealLine {
  dl_name : JsVal;
  dl_stage : JsVal;
  dl_mediaBudget : num;
  dl_poAmount : num;
  dl_closeDate : JsVal
}.

Module Analysis.
Record t : Type := make {
  companyName : string;
  totalMediaBudget : num;
  totalPOAmount : num;
  dealCount : nat;
  wonDeals : nat;
  openDeals : nat;
  lostDeals : nat;
  deals : list DealLine
}.
End Analysis.

Module RevenueItem.
Record t : Type := make {
  companyName : string;
  totalMediaBudget : num;
  totalPOAmount : num;
  dealCount : nat;
  wonDeals : nat;
  openDeals : nat;
  lostDeals : nat;
  winRate : num;
  avgPOAmount : num;
  avgMediaBudget : num;
  deals : list DealLine
}.
End RevenueItem.

Module Combined.
Inductive t : Type :=
| OfMapping (m : Mapping.t) (strategy type : string)
| OfDomain (r : DomainRelationship.t) (strategy type : string).

Definition dealName (rel : t) : JsVal :=
  match rel with
  | OfMapping m _ _ => Mapping.dealName m
  | OfDomain _ _ _ => VUndef
  end.

Definition companyName (rel : t) : JsVal :=
  match rel with
  | OfMapping m _ _ => Mapping.companyName m
  | OfDomain _ _ _ => VUndef
  end.

Definition parentName (rel : t) : JsVal :=
  match rel with
  | OfMapping _ _ _ => VUndef
  | OfDomain r _ _ => DomainRelationship.parentName r
  end.

Definition childName (rel : t) : JsVal :=
  match rel with
  | OfMapping _ _ _ => VUndef
  | OfDomain r _ _ => DomainRelationship.childName r
  end.

Definition campaignBrand (rel : t) : JsVal :=
  match rel with
  | OfMapping m _ _ => Mapping.campaignBrand m
  | OfDomain _ _ _ => VUndef
  end.
End Combined.

Module Stats.
Record t : Type := make {
  totalDeals : nat;
  totalCompanies : nat;
  directMappings : nat;
  domainRelationships : nat;
  revenueAccuracy : nat;
  totalRevenue : num;
  totalBrands : nat;
  closedWonDeals : nat;
  openDeals : nat;
  lostDeals : nat;
  winRate : num;
  averageDealSize : num;
  mappingCoverage : num;
  pipelineDistribution : list (string * nat);
  stageDistribution : list (string * nat)
}.
End Stats.

Section Resolvers.
Context {host : Host}.

(** *** Strategy 1: [directIdMapping] *)

Definition sameIdText (primaryCompanyId : JsVal) (c : Company.t) : bool :=
  String.eqb (ToString (Company.RecordID c)) (ToString primaryCompanyId).

Definition mappingOf (deal : Deal.t) (company : Company.t) : Mapping.t :=
  {| Mapping.dealId := Deal.RecordID deal;
     Mapping.dealName := jsOr (Deal.DealName deal) (VStr "Unnamed Deal");
     Mapping.companyId := Company.RecordID company;
     Mapping.companyName := jsOr (Company.CompanyName company) (VStr "Unnamed Company");
     Mapping.relationship := "primary";
     Mapping.confidence := Fin 100%Q;
     Mapping.amount := numOr0 (parseFloat (Deal.Budget deal));
     Mapping.campaignBrand := jsOr (Deal.CampaignBrand deal) (VStr "");
     Mapping.dealStage := jsOr (Deal.DealStage deal) (VStr "Unknown");
     Mapping.pipeline := jsOr (Deal.Pipeline deal) (VStr "Unknown");
     Mapping.closeDate := Deal.CloseDate deal;
     Mapping.createDate := Deal.CreateDate deal;
     Mapping.isClosedWon :=
       if strictEq (Deal.IsClosedWon deal) (VBool true) then VBool true
       else if truthy (Deal.DealStage deal)
            then VBool (includes (toLowerCase (ToString (Deal.DealStage deal))) "won")
            else Deal.DealStage deal |}.

(** The body of [deals.forEach]: the state is the array [mappings] and the
    counter [unmappedCount]. *)
Definition directIdBody (companies : list Company.t)
    (st : list Mapping.t * nat) (deal : Deal.t) : list Mapping.t * nat :=
  let '(mappings, unmappedCount) := st in
  let primaryCompanyId := Deal.AssociatedCompanyIDsPrimary deal in
  if hasReference primaryCompanyId then
    match find (sameIdText primaryCompanyId) companies with
    | Some company => (mappings ++ [mappingOf deal company], unmappedCount)
    | None => (mappings, S unmappedCount)
    end
  else (mappings, S unmappedCount).

Definition directIdLoop (deals : list Deal.t) (companies : list Company.t)
  : list Mapping.t * nat :=
  fold_left (directIdBody companies) deals ([], 0).

Definition directIdMapping (deals : list Deal.t) (companies : list Company.t)
  : list Mapping.t :=
  if Nat.eqb (List.length deals) 0 || Nat.eqb (List.length companies) 0 then []
  else fst (directIdLoop deals companies).

(** *** Strategy 2: [domainMapping] *)

Definition rootDomainOf (domain : string) : string :=
  let cleanDomain := trim (stripWww (toLowerCase domain)) in
  join "." (sliceLast 2 (split "." cleanDomain)).

(** [domain && typeof domain === 'string' && domain.trim() !== ''] *)
Definition usableDomain (domain : JsVal) : option string :=
  match domain with
  | VStr d => if nonEmpty d && nonEmpty (trim d) then Some d else None
  | _ => None
  end.

Definition groupBody (domainGroups : list (string * list Company.t))
    (company : Company.t) : list (string * list Company.t) :=
  match usableDomain (Company.CompanyDomainName company) with
  | Some d =>
      let rootDomain := rootDomainOf d in
      assign rootDomain (getOr [] (lookup rootDomain domainGroups) ++ [company])
        domainGroups
  | None => domainGroups
  end.

Definition domainGroups (companies : list Company.t) : list (string * list Company.t) :=
  fold_left groupBody companies [].

Definition withMetrics (mappings : list Mapping.t) (company : Company.t) : WithMetrics.t :=
  {| WithMetrics.company := company;
     WithMetrics.dealCount :=
       List.length
         (filter (fun m => strictEq (Mapping.companyId m) (Company.RecordID company))
            mappings);
     WithMetrics.totalRevenue := numOr0 (parseFloat (Company.TotalRevenue company)) |}.

(** The callback of [reduce]: deal count first, then revenue. *)
Definition pickParent (prev curr : WithMetrics.t) : WithMetrics.t :=
  if Nat.ltb (WithMetrics.dealCount prev) (WithMetrics.dealCount curr) then curr
  else if Nat.eqb (WithMetrics.dealCount curr) (WithMetrics.dealCount prev)
          && numGt (WithMetrics.totalRevenue curr) (WithMetrics.totalRevenue prev)
       then curr
       else prev.

(** [xs.reduce(f)] without an initial value, on a non-empty array. *)
Definition reduce1 {A} (f : A -> A -> A) (first : A) (rest : list A) : A :=
  fold_left f rest first.

Definition relationshipOf (domain : string) (parent : WithMetrics.t)
    (company : Company.t) : DomainRelationship.t :=
  {| DomainRelationship.parentId := Company.RecordID (WithMetrics.company parent);
     DomainRelationship.parentName :=
       jsOr (Company.CompanyName (WithMetrics.company parent)) (VStr "Unnamed Parent");
     DomainRelationship.childId := Company.RecordID company;
     DomainRelationship.childName :=
       jsOr (Company.CompanyName company) (VStr "Unnamed Child");
     DomainRelationship.confidence := Fin 75%Q;
     DomainRelationship.basis := "domain";
     DomainRelationship.domain := domain;
     DomainRelationship.parentDealCount := WithMetrics.dealCount parent;
     DomainRelationship.parentRevenue := WithMetrics.totalRevenue parent |}.

Definition isChildOf (parent : WithMetrics.t) (company : Company.t) : bool :=
  negb (strictEq (Company.RecordID company)
          (Company.RecordID (WithMetrics.company parent))).

Definition childBody (domain : string) (parent : WithMetrics.t)
    (relationships : list DomainRelationship.t) (company : Company.t)
  : list DomainRelationship.t :=
  if isChildOf parent company
  then relationships ++ [relationshipOf domain parent company]
  else relationships.

(** The parent of a group: the result of [reduce] over the companies with
    their metrics. There is none for an empty group, where [reduce] has
    nothing to start from; the guard [relatedCompanies.length > 1]
    excludes it. *)
Definition parentOf (mappings : list Mapping.t) (relatedCompanies : list Company.t)
  : option WithMetrics.t :=
  match map (withMetrics mappings) relatedCompanies with
  | first :: rest => Some (reduce1 pickParent first rest)
  | [] => None
  end.

(** The body of [Object.entries(domainGroups).forEach]. *)
Definition entryBody (mappings : list Mapping.t)
    (relationships : list DomainRelationship.t)
    (entry : string * list Company.t) : list DomainRelationship.t :=
  let '(domain, relatedCompanies) := entry in
  if Nat.ltb 1 (List.length relatedCompanies) then
    match parentOf mappings relatedCompanies with
    | Some parent => fold_left (childBody domain parent) relatedCompanies relationships
    | None => relationships
    end
  else relationships.

Definition domainMapping (companies : list Company.t) (mappings : list Mapping.t)
  : list DomainRelationship.t :=
  fold_left (entryBody mappings) (domainGroups companies) [].

(** *** Strategy 3: [brandMapping] *)

(** The dictionaries the loop mutates. *)
Record BrandState : Type := mkBrandState {
  brandRevenue : list (string * num);
  brandCompanies : list (string * list JsVal);
  brandDealCounts : list (string * nat);
  brandPipelines : list (string * list (string * nat));
  brandStages : list (string * list (string * nat));
  brandTimeSeries : list (string * list (string * num))
}.

Definition emptyBrandState : BrandState :=
  mkBrandState [] [] [] [] [] [].

Definition brandsOf (deal : Deal.t) : list string :=
  splitTags (Deal.CampaignBrand deal).

Definition revenueOf (deal : Deal.t) : num :=
  numOr0 (parseFloat (Deal.Budget deal)).

(** [brandTimeSeries[brand][monthYear] = (... || 0) + revenue] after
    [new Date(closeDate).toISOString().slice(0, 7)], which throws on an
    invalid date. *)
Definition timeSeriesStep (closeDate : JsVal) (brand : string) (revenue : num)
    (series : list (string * list (string * num)))
  : result (list (string * list (string * num))) :=
  if truthy closeDate then
    iso <- toISOString (newDate closeDate) ;;
    let monthYear := sliceTo 7 iso in
    let inner := getOr [] (lookup brand series) in
    Ok (assign brand (assign monthYear (numAdd (numAt inner monthYear) revenue) inner)
          series)
  else Ok series.

(** The body of [brands.forEach] for one deal. *)
Definition brandBody (deal : Deal.t) (st : BrandState) (brand : string)
  : result BrandState :=
  let revenue := revenueOf deal in
  let pipeline := jsOr (Deal.Pipeline deal) (VStr "Unknown") in
  let stage := jsOr (Deal.DealStage deal) (VStr "Unknown") in
  let primaryCompanyId := Deal.AssociatedCompanyIDsPrimary deal in
  if nonEmpty brand then
    let revenue' := assign brand (numAdd (numAt (brandRevenue st) brand) revenue)
                      (brandRevenue st) in
    let counts' := assign brand (S (countAt (brandDealCounts st) brand))
                     (brandDealCounts st) in
    let pipelines' := bumpNested brand (ToString pipeline) (brandPipelines st) in
    let stages' := bumpNested brand (ToString stage) (brandStages st) in
    series' <- timeSeriesStep (Deal.CloseDate deal) brand revenue (brandTimeSeries st) ;;
    let companies' :=
      if hasReference primaryCompanyId
      then assign brand
             (setAdd primaryCompanyId (getOr [] (lookup brand (brandCompanies st))))
             (brandCompanies st)
      else brandCompanies st in
    Ok (mkBrandState revenue' companies' counts' pipelines' stages' series')
  else Ok st.

(** The body of [deals.forEach]. *)
Definition brandDealBody (st : BrandState) (deal : Deal.t) : result BrandState :=
  forEachM (brandBody deal) (brandsOf deal) st.

Definition brandLoop (deals : list Deal.t) : result BrandState :=
  forEachM brandDealBody deals emptyBrandState.

Record BrandMetric : Type := mkBrandMetric {
  bm_brand : string;
  bm_revenue : num;
  bm_dealCount : nat;
  bm_avgDealSize : num;
  bm_companyCount : nat;
  bm_winRate : num;
  bm_pipelines : list (string * nat);
  bm_stages : list (string * nat)
}.

Definition brandMetricOf (st : BrandState) (brand : string) : BrandMetric :=
  let revenue := getOr NaN (lookup brand (brandRevenue st)) in
  let dealCount := countAt (brandDealCounts st) brand in
  let stages := getOr [] (lookup brand (brandStages st)) in
  let wonDeals :=
    fold_left (fun sum e => sum + snd e)
      (filter (fun e => includes (toLowerCase (fst e)) "won") stages) 0 in
  {| bm_brand := brand;
     bm_revenue := revenue;
     bm_dealCount := dealCount;
     bm_avgDealSize := numDiv revenue (ofNat dealCount);
     bm_companyCount := List.length (getOr [] (lookup brand (brandCompanies st)));
     bm_winRate := numMul (numDiv (ofNat wonDeals) (ofNat dealCount)) (Fin 100%Q);
     bm_pipelines := getOr [] (lookup brand (brandPipelines st));
     bm_stages := stages |}.

Record BrandResult : Type := mkBrandResult {
  br_state : BrandState;
  brandMetrics : list BrandMetric;
  totalBrands : nat;
  totalBrandRevenue : num
}.

Definition brandMapping (deals : list Deal.t) : result BrandResult :=
  st <- brandLoop deals ;;
  Ok {| br_state := st;
        brandMetrics :=
          sortStable (fun a b => numGt (bm_revenue a) (bm_revenue b))
            (map (brandMetricOf st) (map fst (brandRevenue st)));
        totalBrands := List.length (map fst (brandRevenue st));
        totalBrandRevenue :=
          fold_left (fun sum rev => numAdd sum rev) (map snd (brandRevenue st))
            (Fin 0%Q) |}.

(** *** Strategy 4: [revenueValidation], keyed by company name *)

(** [dealStage && dealStage.toLowerCase().includes(word)] as a condition. *)
Definition stageHas (dealStage : JsVal) (word : string) : result bool :=
  if truthy dealStage then
    lower <- callToLowerCase dealStage ;;
    Ok (includes lower word)
  else Ok false.

Definition emptyAnalysis (companyName : string) : Analysis.t :=
  Analysis.make companyName (Fin 0%Q) (Fin 0%Q) 0 0 0 0 [].

(** The body of [associatedCompanies.forEach]. *)
Definition analysisBody (deal : Deal.t) (dealMediaBudget dealPOAmount : num)
    (dealStage : JsVal) (isClosedWon : bool)
    (analysis : list (string * Analysis.t)) (companyName : string)
  : result (list (string * Analysis.t)) :=
  let a := getOr (emptyAnalysis companyName) (lookup companyName analysis) in
  let line := mkDealLine (jsOr (Deal.DealName deal) (VStr "Unnamed Deal"))
                dealStage dealMediaBudget dealPOAmount (Deal.CloseDate deal) in
  let a1 :=
    Analysis.make (Analysis.companyName a)
      (numAdd (Analysis.totalMediaBudget a) dealMediaBudget)
      (numAdd (Analysis.totalPOAmount a) dealPOAmount)
      (Analysis.dealCount a + 1)
      (Analysis.wonDeals a) (Analysis.openDeals a) (Analysis.lostDeals a)
      (Analysis.deals a ++ [line]) in
  a2 <- (if isClosedWon then
           Ok (Analysis.make (Analysis.companyName a1) (Analysis.totalMediaBudget a1)
                 (Analysis.totalPOAmount a1) (Analysis.dealCount a1)
                 (Analysis.wonDeals a1 + 1) (Analysis.openDeals a1)
                 (Analysis.lostDeals a1) (Analysis.deals a1))
         else
           lost <- stageHas dealStage "lost" ;;
           if lost then
             Ok (Analysis.make (Analysis.companyName a1) (Analysis.totalMediaBudget a1)
                   (Analysis.totalPOAmount a1) (Analysis.dealCount a1)
                   (Analysis.wonDeals a1) (Analysis.openDeals a1)
                   (Analysis.lostDeals a1 + 1) (Analysis.deals a1))
           else
             Ok (Analysis.make (Analysis.companyName a1) (Analysis.totalMediaBudget a1)
                   (Analysis.totalPOAmount a1) (Analysis.dealCount a1)
                   (Analysis.wonDeals a1) (Analysis.openDeals a1 + 1)
                   (Analysis.lostDeals a1) (Analysis.deals a1))) ;;
  Ok (assign companyName a2 analysis).

(** The body of [deals.forEach]. *)
Definition analysisDealBody (analysis : list (string * Analysis.t)) (deal : Deal.t)
  : result (list (string * Analysis.t)) :=
  let dealMediaBudget := numOr0 (parseFloat (Deal.Budget deal)) in
  let dealPOAmount := numOr0 (parseFloat (Deal.Amount deal)) in
  let dealStage := jsOr (Deal.DealStage deal) (VStr "Unknown") in
  isClosedWon <- (if strictEq (Deal.IsClosedWon deal) (VBool true) then Ok true
                  else stageHas dealStage "won") ;;
  forEachM (analysisBody deal dealMediaBudget dealPOAmount dealStage isClosedWon)
    (splitTags (Deal.AssociatedCompany deal)) analysis.

Definition revenueItemOf (analysis : Analysis.t) : RevenueItem.t :=
  let n := Analysis.dealCount analysis in
  {| RevenueItem.companyName := Analysis.companyName analysis;
     RevenueItem.totalMediaBudget := Analysis.totalMediaBudget analysis;
     RevenueItem.totalPOAmount := Analysis.totalPOAmount analysis;
     RevenueItem.dealCount := n;
     RevenueItem.wonDeals := Analysis.wonDeals analysis;
     RevenueItem.openDeals := Analysis.openDeals analysis;
     RevenueItem.lostDeals := Analysis.lostDeals analysis;
     RevenueItem.winRate :=
       if Nat.ltb 0 n
       then numMul (numDiv (ofNat (Analysis.wonDeals analysis)) (ofNat n)) (Fin 100%Q)
       else Fin 0%Q;
     RevenueItem.avgPOAmount :=
       if Nat.ltb 0 n then numDiv (Analysis.totalPOAmount analysis) (ofNat n)
       else Fin 0%Q;
     RevenueItem.avgMediaBudget :=
       if Nat.ltb 0 n then numDiv (Analysis.totalMediaBudget analysis) (ofNat n)
       else Fin 0%Q;
     RevenueItem.deals := Analysis.deals analysis |}.

Definition hasRevenue (item : RevenueItem.t) : bool :=
  numGt (RevenueItem.totalMediaBudget item) (Fin 0%Q)
  || numGt (RevenueItem.totalPOAmount item) (Fin 0%Q).

Definition revenueValidation (deals : list Deal.t) : result (list RevenueItem.t) :=
  companyDealAnalysis <- forEachM analysisDealBody deals [] ;;
  Ok (filter hasRevenue (map (fun e => revenueItemOf (snd e)) companyDealAnalysis)).

(** *** [combinedRelationships] and [filteredRelationships] *)

Definition combinedRelationships (directIdMapping : list Mapping.t)
    (domainMapping : list DomainRelationship.t) : list Combined.t :=
  let combined :=
    fold_left (fun acc mapping => acc ++ [Combined.OfMapping mapping "Enhanced ID" "deal-company"])
      directIdMapping [] in
  fold_left (fun acc rel => acc ++ [Combined.OfDomain rel "Domain" "parent-child"])
    domainMapping combined.

(** [field?.toLowerCase().includes(lowerSearch)] as a condition:
    [undefined] when the field is [undefined] or [null]. *)
Definition fieldHas (field : JsVal) (lowerSearch : string) : result bool :=
  match field with
  | VUndef | VNull => Ok false
  | _ => lower <- callToLowerCase field ;; Ok (includes lower lowerSearch)
  end.

(** [a || b] between conditions: [b] is not evaluated when [a] holds. *)
Definition orElse (a b : result bool) : result bool :=
  x <- a ;; if x then Ok true else b.

Definition relMatches (lowerSearch : string) (rel : Combined.t) : result bool :=
  orElse (fieldHas (Combined.dealName rel) lowerSearch)
    (orElse (fieldHas (Combined.companyName rel) lowerSearch)
       (orElse (fieldHas (Combined.parentName rel) lowerSearch)
          (orElse (fieldHas (Combined.childName rel) lowerSearch)
             (fieldHas (Combined.campaignBrand rel) lowerSearch)))).

Definition filteredRelationships (combined : list Combined.t) (searchTerm : string)
  : result (list Combined.t) :=
  if negb (nonEmpty searchTerm) then Ok combined
  else
    let lowerSearch := toLowerCase searchTerm in
    filterM (relMatches lowerSearch) combined.

(** *** [strategyStats] *)

(** [stage && typeof stage === 'string' && stage.toLowerCase().includes(word)] *)
Definition stageText (stage : JsVal) (word : string) : bool :=
  match stage with
  | VStr s => nonEmpty s && includes (toLowerCase s) word
  | _ => false
  end.

Definition totalDealValue (deals : list Deal.t) : num :=
  fold_left (fun sum deal => numAdd sum (numOr0 (parseFloat (Deal.Budget deal))))
    deals (Fin 0%Q).

Definition isWonDeal (deal : Deal.t) : bool :=
  strictEq (Deal.IsClosedWon deal) (VBool true) || stageText (Deal.DealStage deal) "won".

Definition isOpenDeal (deal : Deal.t) : bool :=
  match Deal.DealStage deal with
  | VStr s =>
      nonEmpty s
      && negb (includes (toLowerCase s) "closed")
      && negb (includes (toLowerCase s) "lost")
      && negb (includes (toLowerCase s) "won")
  | _ => false
  end.

Definition isLostDeal (deal : Deal.t) : bool :=
  stageText (Deal.DealStage deal) "lost".

(** [(v && typeof v === 'string') ? v : 'Unknown'] *)
Definition labelOf (v : JsVal) : string :=
  match v with
  | VStr s => if nonEmpty s then s else "Unknown"
  | _ => "Unknown"
  end.

Definition bump (k : string) (o : list (string * nat)) : list (string * nat) :=
  assign k (countAt o k + 1) o.

(** [count / deals.length * 100], guarded by [deals.length > 0]. *)
Definition percentOf (count total : nat) : num :=
  if Nat.ltb 0 total
  then numMul (numDiv (ofNat count) (ofNat total)) (Fin 100%Q)
  else Fin 0%Q.

Definition strategyStats (deals : list Deal.t) (companies : list Company.t)
    (directIdMapping : list Mapping.t) (domainMapping : list DomainRelationship.t)
    (revenueValidation : list RevenueItem.t) (brandMapping : BrandResult) : Stats.t :=
  let closedWonDeals := List.length (filter isWonDeal deals) in
  let openDeals := List.length (filter isOpenDeal deals) in
  let lostDeals := List.length (filter isLostDeal deals) in
  {| Stats.totalDeals := List.length deals;
     Stats.totalCompanies := List.length companies;
     Stats.directMappings := List.length directIdMapping;
     Stats.domainRelationships := List.length domainMapping;
     Stats.revenueAccuracy :=
       List.length
         (filter (fun r => numGt (RevenueItem.winRate r) (Fin 50%Q)) revenueValidation);
     Stats.totalRevenue := totalDealValue deals;
     Stats.totalBrands := totalBrands brandMapping;
     Stats.closedWonDeals := closedWonDeals;
     Stats.openDeals := openDeals;
     Stats.lostDeals := lostDeals;
     Stats.winRate := percentOf closedWonDeals (List.length deals);
     Stats.averageDealSize :=
       if Nat.ltb 0 (List.length deals)
       then numDiv (totalDealValue deals) (ofNat (List.length deals))
       else Fin 0%Q;
     Stats.mappingCoverage := percentOf (List.length directIdMapping) (List.length deals);
     Stats.pipelineDistribution :=
       fold_left (fun dist deal => bump (labelOf (Deal.Pipeline deal)) dist) deals [];
     Stats.stageDistribution :=
       fold_left (fun dist deal => bump (labelOf (Deal.DealStage deal)) dist) deals [] |}.

(** *** One reconciliation pass

    The derived collections in the order the component evaluates them; the
    first exception ends the pass. *)
Record Pass : Type := mkPass {
  pass_directIdMapping : list Mapping.t;
  pass_domainMapping : list DomainRelationship.t;
  pass_brandMapping : BrandResult;
  pass_revenueValidation : list RevenueItem.t;
  pass_combinedRelationships : list Combined.t;
  pass_filteredRelationships : list Combined.t;
  pass_strategyStats : Stats.t
}.

Definition reconcile (deals : list Deal.t) (companies : list Company.t)
    (searchTerm : string) : result Pass :=
  let direct := directIdMapping deals companies in
  let domains := domainMapping companies direct in
  brands <- brandMapping deals ;;
  revenue <- revenueValidation deals ;;
  let combined := combinedRelationships direct domains in
  filtered <- filteredRelationships combined searchTerm ;;
  Ok (mkPass direct domains brands revenue combined filtered
        (strategyStats deals companies direct domains revenue brands)).

(** *** What the tabs derive from the collections *)

(** [rel.strategy] *)
Definition strategyOf (rel : Combined.t) : string :=
  match rel with
  | Combined.OfMapping _ strategy _ => strategy
  | Combined.OfDomain _ strategy _ => strategy
  end.



(** The rows of the ID-mapping table,
    [filteredRelationships.filter(r => r.strategy === 'Enhanced ID').slice(0, 50)],
    and the test of the line telling that rows are left out. *)
Definition isEnhancedId (rel : Combined.t) : bool :=
  String.eqb (strategyOf rel) "Enhanced ID".

Definition idMappingRows (filteredRelationships : list Combined.t) : list Combined.t :=
  firstn 50 (filter isEnhancedId filteredRelationships).

Definition idMappingRowsLeftOut (filteredRelationships : list Combined.t) : bool :=
  Nat.ltb 50 (List.length (filter isEnhancedId filteredRelationships)).

(** [name.slice(0, 20) + (name.length > 20 ? '...' : '')] *)
Definition shortName (name : string) : string :=
  (sliceTo 20 name ++ (if Nat.ltb 20 (String.length name) then "..." else ""))%string.

Record WinRateBar : Type := mkWinRateBar {
  bar_name : string;
  bar_winRate : num;
  bar_deals : nat;
  bar_wonDeals : nat
}.

(** The bars of the win-rate chart:
    [revenueValidation.filter(c => c.dealCount >= 3)
       .sort((a, b) => b.winRate - a.winRate).slice(0, 10).map(...)]. *)
Definition winRateBars (revenueValidation : list RevenueItem.t) : list WinRateBar :=
  map (fun company =>
         mkWinRateBar (shortName (RevenueItem.companyName company))
           (RevenueItem.winRate company) (RevenueItem.dealCount company)
           (RevenueItem.wonDeals company))
    (firstn 10
       (sortStable (fun a b => numGt (RevenueItem.winRate a) (RevenueItem.winRate b))
          (filter (fun c => Nat.leb 3 (RevenueItem.dealCount c)) revenueValidation))).

End Resolvers.
End Mapper.

(** ** The older variant of the component ([unnamed/part_000])

    The same four strategies before the rewrite: no defaults on names, a
    parent chosen by revenue alone, and a Revenue Validator keyed by the
    company identifier that scores the declared revenue. *)

Module Legacy.

Module Mapping.
Record t : Type := make {
  dealId : JsVal;
  dealName : JsVal;
  companyId : JsVal;
  companyName : JsVal;
  relationship : string;
  confidence : num;
  amount : JsVal;
  campaignBrand : JsVal;
  dealStage : JsVal;
  pipeline : JsVal
}.
End Mapping.

Module DomainRelationship.
Record t : Type := make {
  parentId : JsVal;
  parentName : JsVal;
  childId : JsVal;
  childName : JsVal;
  confidence : num;
  basis : string;
  domain : string
}.
End DomainRelationship.

Record DealLine : Type := mkDealLine {
  dl_name : JsVal;
  dl_stage : JsVal;
  dl_revenue : JsVal
}.

Module Analysis.
Record t : Type := make {
  companyName : JsVal;
  declaredRevenue : JsVal;
  calculatedRevenue : JsVal;
  dealCount : nat;
  wonDeals : nat;
  openDeals : nat;
  deals : list DealLine
}.
End Analysis.

Module RevenueItem.
Record t : Type := make {
  companyId : num;
  companyName : JsVal;
  declaredRevenue : JsVal;
  calculatedRevenue : JsVal;
  variance : num;
  accuracy : num;
  dealCount : nat;
  wonDeals : nat;
  openDeals : nat;
  winRate : num
}.
End RevenueItem.

Section Resolvers.
Context {host : Host}.

(** [a > b] on values: text order between two strings, numeric otherwise. *)
Definition jsGt (a b : JsVal) : bool :=
  match a, b with
  | VStr x, VStr y => String.ltb y x
  | _, _ => numGt (ToNumber a) (ToNumber b)
  end.

(** *** Strategy 1: [directIdMapping] *)

Definition sameIdText (primaryCompanyId : JsVal) (c : Company.t) : bool :=
  String.eqb (ToString (Company.RecordID c)) (ToString primaryCompanyId).

Definition mappingOf (deal : Deal.t) (company : Company.t) : Mapping.t :=
  {| Mapping.dealId := Deal.RecordID deal;
     Mapping.dealName := Deal.DealName deal;
     Mapping.companyId := Company.RecordID company;
     Mapping.companyName := Company.CompanyName company;
     Mapping.relationship := "primary";
     Mapping.confidence := Fin 100%Q;
     Mapping.amount := jsOr (Deal.Budget deal) (VNum (Fin 0%Q));
     Mapping.campaignBrand := Deal.CampaignBrand deal;
     Mapping.dealStage := Deal.DealStage deal;
     Mapping.pipeline := Deal.Pipeline deal |}.

Definition directIdBody (companies : list Company.t)
    (mappings : list Mapping.t) (deal : Deal.t) : list Mapping.t :=
  let primaryCompanyId := Deal.AssociatedCompanyIDsPrimary deal in
  if hasReference primaryCompanyId then
    match find (sameIdText primaryCompanyId) companies with
    | Some company => mappings ++ [mappingOf deal company]
    | None => mappings
    end
  else mappings.

Definition directIdMapping (deals : list Deal.t) (companies : list Company.t)
  : list Mapping.t :=
  if Nat.eqb (List.length deals) 0 || Nat.eqb (List.length companies) 0 then []
  else fold_left (directIdBody companies) deals [].

(** *** Strategy 2: [domainMapping] *)

Definition rootDomainOf (lower : string) : string :=
  join "." (sliceLast 2 (split "." (stripWww lower))).

(** [if (domain)] guards the body, and [domain.toLowerCase()] is called on
    whatever passed the guard. *)
Definition groupBody (domainGroups : list (string * list Company.t))
    (company : Company.t) : result (list (string * list Company.t)) :=
  let domain := Company.CompanyDomainName company in
  if truthy domain then
    lower <- callToLowerCase domain ;;
    let rootDomain := rootDomainOf lower in
    Ok (assign rootDomain (getOr [] (lookup rootDomain domainGroups) ++ [company])
          domainGroups)
  else Ok domainGroups.

Definition pickParent (prev curr : Company.t) : Company.t :=
  let prevRevenue := jsOr (Company.TotalRevenue prev) (VNum (Fin 0%Q)) in
  let currRevenue := jsOr (Company.TotalRevenue curr) (VNum (Fin 0%Q)) in
  if jsGt currRevenue prevRevenue then curr else prev.

Definition relationshipOf (domain : string) (parent company : Company.t)
  : DomainRelationship.t :=
  {| DomainRelationship.parentId := Company.RecordID parent;
     DomainRelationship.parentName := Company.CompanyName parent;
     DomainRelationship.childId := Company.RecordID company;
     DomainRelationship.childName := Company.CompanyName company;
     DomainRelationship.confidence := Fin 75%Q;
     DomainRelationship.basis := "domain";
     DomainRelationship.domain := domain |}.

Definition childBody (domain : string) (parent : Company.t)
    (relationships : list DomainRelationship.t) (company : Company.t)
  : list DomainRelationship.t :=
  if negb (strictEq (Company.RecordID company) (Company.RecordID parent))
  then relationships ++ [relationshipOf domain parent company]
  else relationships.

Definition entryBody (relationships : list DomainRelationship.t)
    (entry : string * list Company.t) : list DomainRelationship.t :=
  let '(domain, relatedCompanies) := entry in
  if Nat.ltb 1 (List.length relatedCompanies) then
    match relatedCompanies with
    | first :: rest =>
        let parent := fold_left pickParent rest first in
        fold_left (childBody domain parent) relatedCompanies relationships
    | [] => relationships
    end
  else relationships.

Definition domainMapping (companies : list Company.t)
  : result (list DomainRelationship.t) :=
  domainGroups <- forEachM groupBody companies [] ;;
  Ok (fold_left entryBody domainGroups []).

(** *** Strategy 4: [revenueValidation], keyed by company identifier *)

Definition stageText (stage : JsVal) (word : string) : bool :=
  match stage with
  | VStr s => nonEmpty s && includes (toLowerCase s) word
  | _ => false
  end.

Definition analysisBody (companies : list Company.t)
    (analysis : list (string * Analysis.t)) (deal : Deal.t)
  : list (string * Analysis.t) :=
  let primaryCompanyId := Deal.AssociatedCompanyIDsPrimary deal in
  let dealRevenue := jsOr (Deal.Budget deal) (VNum (Fin 0%Q)) in
  let dealStage := Deal.DealStage deal in
  if hasReference primaryCompanyId then
    match find (sameIdText primaryCompanyId) companies with
    | Some company =>
        let companyId := ToString (Company.RecordID company) in
        let a :=
          getOr (Analysis.make (Company.CompanyName company)
                   (jsOr (Company.TotalRevenue company) (VNum (Fin 0%Q)))
                   (VNum (Fin 0%Q)) 0 0 0 [])
            (lookup companyId analysis) in
        let won := stageText dealStage "won" in
        let open :=
          match dealStage with
          | VStr s => nonEmpty s && negb (includes (toLowerCase s) "lost")
                      && negb (includes (toLowerCase s) "won")
          | _ => false
          end in
        assign companyId
          (Analysis.make (Analysis.companyName a) (Analysis.declaredRevenue a)
             (jsAdd (Analysis.calculatedRevenue a) dealRevenue)
             (Analysis.dealCount a + 1)
             (if won then Analysis.wonDeals a + 1 else Analysis.wonDeals a)
             (if won then Analysis.openDeals a
              else if open then Analysis.openDeals a + 1 else Analysis.openDeals a)
             (Analysis.deals a ++ [mkDealLine (Deal.DealName deal) dealStage dealRevenue]))
          analysis
    | None => analysis
    end
  else analysis.

(** The score of one company:
    [declared > 0 ? Math.max(0, 100 - ((variance / declared) * 100)) : 0]. *)
Definition accuracyOf (declaredRevenue : JsVal) (variance : num) : num :=
  if jsGt declaredRevenue (VNum (Fin 0%Q))
  then Math_max (Fin 0%Q)
         (numSub (Fin 100%Q)
            (numMul (numDiv variance (ToNumber declaredRevenue)) (Fin 100%Q)))
  else Fin 0%Q.

Definition revenueItemOf (entry : string * Analysis.t) : RevenueItem.t :=
  let '(companyId, analysis) := entry in
  let variance :=
    Math_abs (numSub (ToNumber (Analysis.declaredRevenue analysis))
                (ToNumber (Analysis.calculatedRevenue analysis))) in
  {| RevenueItem.companyId := parseIntString companyId;
     RevenueItem.companyName := Analysis.companyName analysis;
     RevenueItem.declaredRevenue := Analysis.declaredRevenue analysis;
     RevenueItem.calculatedRevenue := Analysis.calculatedRevenue analysis;
     RevenueItem.variance := variance;
     RevenueItem.accuracy := accuracyOf (Analysis.declaredRevenue analysis) variance;
     RevenueItem.dealCount := Analysis.dealCount analysis;
     RevenueItem.wonDeals := Analysis.wonDeals analysis;
     RevenueItem.openDeals := Analysis.openDeals analysis;
     RevenueItem.winRate :=
       if Nat.ltb 0 (Analysis.dealCount analysis)
       then numMul (numDiv (ofNat (Analysis.wonDeals analysis))
                      (ofNat (Analysis.dealCount analysis))) (Fin 100%Q)
       else Fin 0%Q |}.

Definition revenueValidation (deals : list Deal.t) (companies : list Company.t)
  : list RevenueItem.t :=
  let companyDealAnalysis := fold_left (analysisBody companies) deals [] in
  filter (fun item => jsGt (RevenueItem.calculatedRevenue item) (VNum (Fin 0%Q)))
    (map revenueItemOf companyDealAnalysis).

(** *** [strategyStats]: the total *)

(** [deals.reduce((sum, deal) => sum + (deal['Budget'] || 0), 0)] *)
Definition totalDealValue (deals : list Deal.t) : JsVal :=
  fold_left (fun sum deal => jsAdd sum (jsOr (Deal.Budget deal) (VNum (Fin 0%Q))))
    deals (VNum (Fin 0%Q)).

End Resolvers.
End Legacy.

(** ** A host for decimal data

    One instance of [Host], used to run the component on concrete tables:
    it reads decimal literals without exponent and dates of the form
    [YYYY-MM-DD], rejects any other text, and prints integers and short
    decimals the way JavaScript does. *)

Module DecimalHost.

Definition digitOf (c : ascii) : option Z :=
  let n := nat_of_ascii c in
  if ((48 <=? n) && (n <=? 57))%nat then Some (Z.of_nat (n - 48)) else None.

(** The longest run of digits at the head of [s]: its value, its length
    and what follows. *)
Fixpoint digits (s : string) (acc : Z) (n : nat) : Z * nat * string :=
  match s with
  | String c s' =>
      match digitOf c with
      | Some d => digits s' (10 * acc + d)%Z (S n)
      | None => (acc, n, s)
      end
  | EmptyString => (acc, n, s)
  end.

Definition signOf (s : string) : bool * string :=
  match s with
  | String "-" r => (true, r)
  | String "+" r => (false, r)
  | _ => (false, s)
  end.

(** A decimal literal [[+-]digits[.digits]] or [[+-].digits] at the head
    of [s], without exponent. *)
Definition decimalPrefix (s : string) : option (Q * string) :=
  let '(neg, s1) := signOf s in
  let '(ip, ni, s2) := digits s1 0%Z 0 in
  let '(fp, nf, s3) :=
    match s2 with
    | String "." r => digits r 0%Z 0
    | _ => (0%Z, 0, s2)
    end in
  if Nat.eqb (ni + nf) 0 then None
  else
    let scale := Z.pow 10 (Z.of_nat nf) in
    let q := Qred (Qmake (ip * scale + fp) (Z.to_pos scale)) in
    Some (if neg then Qred (Qopp q) else q, s3).

Definition parseFloatString (s : string) : num :=
  match decimalPrefix (trimStart s) with
  | Some (q, _) => Fin q
  | None => NaN
  end.

Definition StringToNumber (s : string) : num :=
  match trim s with
  | EmptyString => Fin 0%Q
  | t => match decimalPrefix t with
         | Some (q, EmptyString) => Fin q
         | _ => NaN
         end
  end.

Definition parseIntString (s : string) : num :=
  let '(neg, s1) := signOf (trimStart s) in
  let '(ip, ni, _) := digits s1 0%Z 0 in
  if Nat.eqb ni 0 then NaN
  else Fin (inject_Z (if neg then Z.opp ip else ip)).

(** The fractional digits of [r / d], at most [fuel] of them. *)
Fixpoint fraction (fuel : nat) (r d : Z) : string :=
  match fuel with
  | O => EmptyString
  | S fuel' =>
      if Z.eqb r 0 then EmptyString
      else (NilZero.string_of_int (Z.to_int (10 * r / d)%Z)
            ++ fraction fuel' (10 * r mod d)%Z d)%string
  end.

Definition NumberToString (q : Q) : string :=
  let q' := Qred q in
  let n := Qnum q' in
  let d := Zpos (Qden q') in
  if Z.eqb d 1 then NilZero.string_of_int (Z.to_int n)
  else
    ((if Z.ltb n 0 then "-" else "")
     ++ NilZero.string_of_int (Z.to_int (Z.abs n / d)%Z)
     ++ "." ++ fraction 17 (Z.abs n mod d)%Z d)%string.

(** Days since 1970-01-01 of a civil date, and back. *)
Definition daysFromCivil (y m d : Z) : Z :=
  let y' := (if Z.leb m 2 then y - 1 else y)%Z in
  let era := (y' / 400)%Z in
  let yoe := (y' - era * 400)%Z in
  let mp := (if Z.ltb 2 m then m - 3 else m + 9)%Z in
  let doy := ((153 * mp + 2) / 5 + d - 1)%Z in
  let doe := (yoe * 365 + yoe / 4 - yoe / 100 + doy)%Z in
  (era * 146097 + doe - 719468)%Z.

Definition civilFromDays (z : Z) : Z * Z * Z :=
  let z' := (z + 719468)%Z in
  let era := (z' / 146097)%Z in
  let doe := (z' - era * 146097)%Z in
  let yoe := ((doe - doe / 1460 + doe / 36524 - doe / 146096) / 365)%Z in
  let doy := (doe - (365 * yoe + yoe / 4 - yoe / 100))%Z in
  let mp := ((5 * doy + 2) / 153)%Z in
  let d := (doy - (153 * mp + 2) / 5 + 1)%Z in
  let m := (if Z.ltb mp 10 then mp + 3 else mp - 9)%Z in
  let y := (yoe + era * 400)%Z in
  ((if Z.leb m 2 then y + 1 else y)%Z, m, d).

(** [Date.parse] of the date-only form [YYYY-MM-DD]; [NaN] for any other
    text. *)
Definition DateParse (s : string) : num :=
  let '(y, ny, s1) := digits s 0%Z 0 in
  match s1 with
  | String "-" r1 =>
      let '(m, nm, s2) := digits r1 0%Z 0 in
      match s2 with
      | String "-" r2 =>
          let '(d, nd, s3) := digits r2 0%Z 0 in
          if Nat.eqb ny 4 && Nat.eqb nm 2 && Nat.eqb nd 2 && negb (nonEmpty s3)
             && Z.leb 1 m && Z.leb m 12 && Z.leb 1 d && Z.leb d 31
          then Fin (inject_Z (daysFromCivil y m d * 86400000))
          else NaN
      | _ => NaN
      end
  | _ => NaN
  end.

(** [z] in decimal on at least [width] digits. *)
Definition padded (width : nat) (z : Z) : string :=
  let t := NilZero.string_of_int (Z.to_int z) in
  (string_of_list_ascii (List.repeat "0"%char (width - String.length t)) ++ t)%string.

Definition DateToISOString (t : Z) : string :=
  let '(y, m, d) := civilFromDays (t / 86400000)%Z in
  let ms := (t mod 86400000)%Z in
  ((if Z.ltb y 0 then "-" ++ padded 6 (Z.abs y)
    else if Z.ltb 9999 y then "+" ++ padded 6 y else padded 4 y)
   ++ "-" ++ padded 2 m ++ "-" ++ padded 2 d
   ++ "T" ++ padded 2 (ms / 3600000)%Z
   ++ ":" ++ padded 2 (ms / 60000 mod 60)%Z
   ++ ":" ++ padded 2 (ms / 1000 mod 60)%Z
   ++ "." ++ padded 3 (ms mod 1000)%Z ++ "Z")%string.

Definition host : Host :=
  Build_Host NumberToString StringToNumber parseFloatString parseIntString
    DateParse DateToISOString.

End DecimalHost.

(** ** Reading the specification

    The notions the specification uses, written from its words, and the
    tables of its examples. *)

Fixpoint sumQ (qs : list Q) : Q :=
  match qs with
  | [] => 0%Q
  | q :: qs' => (q + sumQ qs')%Q
  end.

(** *** Direct-ID resolution *)

Section DirectIdNotions.
Context {host : Host}.

(** A deal refers to a company of the table: its primary-company reference
    is not blank and reads, as a string, like the identifier of one. *)
Definition refersTo (companies : list Company.t) (deal : Deal.t) : bool :=
  let ref := Deal.AssociatedCompanyIDsPrimary deal in
  hasReference ref
  && existsb (fun c => String.eqb (ToString (Company.RecordID c)) (ToString ref))
       companies.

(** What one iteration of the Direct-ID loop appends for a deal. *)
Definition emitted (companies : list Company.t) (deal : Deal.t) : list Mapper.Mapping.t :=
  fst (Mapper.directIdBody companies ([], 0) deal).

Definition legacyEmitted (companies : list Company.t) (deal : Deal.t)
  : list Legacy.Mapping.t :=
  Legacy.directIdBody companies [] deal.

End DirectIdNotions.

(** *** Root domains and groups *)




(** A company filed under key [k]: its domain is a non-blank string whose
    root domain is [k]. *)
Definition filedUnder (k : string) (c : Company.t) : Prop :=
  exists d, Mapper.usableDomain (Company.CompanyDomainName c) = Some d
            /\ Mapper.rootDomainOf d = k.

(** The groups hold companies of the table, each under its own key, and
    no key twice. *)
Definition groupsOk (companies : list Company.t)
    (groups : list (string * list Company.t)) : Prop :=
  NoDup (map fst groups)
  /\ forall k g c, In (k, g) groups -> In c g -> In c companies /\ filedUnder k c.

(** The relationships of one root domain. *)
Definition ofDomain (domain : string) (r : Mapper.DomainRelationship.t) : bool :=
  String.eqb (Mapper.DomainRelationship.domain r) domain.

Section ParentNotions.
Context {host : Host}.

(** The relationships the Domain loop emits for one group. *)
Definition groupRelationships (mappings : list Mapper.Mapping.t)
    (entry : string * list Company.t) : list Mapper.DomainRelationship.t :=
  Mapper.entryBody mappings [] entry.

(** The number of Direct-ID mappings resolved to a company, and the revenue
    it declares, 0 when absent or unparsable. *)
Definition resolvedDeals (mappings : list Mapper.Mapping.t) (c : Company.t) : nat :=
  count_occ Bool.bool_dec
    (map (fun m => strictEq (Mapper.Mapping.companyId m) (Company.RecordID c)) mappings)
    true.

Definition declaredRevenue (c : Company.t) : num :=
  numOr0 (parseFloat (Company.TotalRevenue c)).

Definition revenueQ (c : Company.t) : Q :=
  match declaredRevenue c with
  | Fin q => q
  | NaN => 0%Q
  end.

(** [a] comes strictly before [b] in the ranking of parents: more resolved
    deals, or as many and a higher declared revenue. *)
Definition outranks (mappings : list Mapper.Mapping.t) (a b : Company.t) : bool :=
  Nat.ltb (resolvedDeals mappings b) (resolvedDeals mappings a)
  || (Nat.eqb (resolvedDeals mappings a) (resolvedDeals mappings b)
      && numGt (declaredRevenue a) (declaredRevenue b)).

(** [a] ranks strictly below [b]. *)
Definition rankedBelow (mappings : list Mapper.Mapping.t) (a b : Company.t) : Prop :=
  resolvedDeals mappings a < resolvedDeals mappings b
  \/ (resolvedDeals mappings a = resolvedDeals mappings b
      /\ (revenueQ a < revenueQ b)%Q).

(** The state of the reduction after the members [seen]: the candidate [p]
    is a member that none outranks and that outranks all those before it. *)
Definition firstBest (mappings : list Mapper.Mapping.t) (seen : list Company.t)
    (p : Company.t) : Prop :=
  exists before after,
    seen = before ++ p :: after
    /\ (forall c, In c before -> outranks mappings p c = true)
    /\ (forall c, In c seen -> outranks mappings c p = false).

(** The identifiers of a list of companies are pairwise different, and each
    equals itself. *)
Fixpoint distinctIds (cs : list Company.t) : bool :=
  match cs with
  | [] => true
  | c :: cs' =>
      strictEq (Company.RecordID c) (Company.RecordID c)
      && forallb (fun c' => negb (strictEq (Company.RecordID c') (Company.RecordID c))) cs'
      && distinctIds cs'
  end.

End ParentNotions.

(** *** Revenue *)



(** The same on the dictionary the validator builds. *)
Definition balancedAnalysis (a : Mapper.Analysis.t) : Prop :=
  Mapper.Analysis.wonDeals a + Mapper.Analysis.openDeals a + Mapper.Analysis.lostDeals a
  = Mapper.Analysis.dealCount a.

Definition allBalanced (analysis : list (string * Mapper.Analysis.t)) : Prop :=
  forall k a, In (k, a) analysis -> balancedAnalysis a.

Section RevenueNotions.
Context {host : Host}.





(** The accuracy as the specification words it:
    [max(0, 100 - |declared - calculated| / declared * 100)] when the
    declared revenue is not zero, 0 otherwise. *)
Definition claimedAccuracy (declared calculated : JsVal) : num :=
  let nonZero := match ToNumber declared with
                 | Fin q => negb (isZero q)
                 | NaN => true
                 end in
  if nonZero
  then Math_max (Fin 0%Q)
         (numSub (Fin 100%Q)
            (numMul
               (numDiv (Math_abs (numSub (ToNumber declared) (ToNumber calculated)))
                  (ToNumber declared))
               (Fin 100%Q)))
  else Fin 0%Q.

End RevenueNotions.

(** *** The free-text filter *)







(** *** Further notions *)

(** The clustering key of a company, when its domain is usable. *)
Definition keyOf (c : Company.t) : option string :=
  option_map Mapper.rootDomainOf (Mapper.usableDomain (Company.CompanyDomainName c)).

Definition filedAt (k : string) (c : Company.t) : bool :=
  match keyOf c with
  | Some k' => String.eqb k' k
  | None => false
  end.


(** A number lies between 0 and 100. *)
Definition isPercent (n : num) : Prop :=
  exists q, n = Fin q /\ (0 <= q)%Q /\ (q <= 100)%Q.




Section ReturnNotions.
Context {host : Host}.


End ReturnNotions.


(** A number as a quantity, [NaN] read as 0. *)
Definition quantity (n : num) : Q :=
  match n with
  | Fin q => q
  | NaN => 0%Q
  end.

Section LineNotions.
Context {host : Host}.

(** The line a deal adds to the analysis of a company it names. *)
Definition lineOf (deal : Deal.t) : Mapper.DealLine :=
  Mapper.mkDealLine (jsOr (Deal.DealName deal) (VStr "Unnamed Deal"))
    (jsOr (Deal.DealStage deal) (VStr "Unknown"))
    (numOr0 (parseFloat (Deal.Budget deal)))
    (numOr0 (parseFloat (Deal.Amount deal)))
    (Deal.CloseDate deal).

(** The lines of the deals that name a company, in the order of the deals,
    one line for each time a deal names it. *)
Definition linesFor (name : string) (deals : list Deal.t) : list Mapper.DealLine :=
  flat_map
    (fun d => map (fun _ => lineOf d)
                (filter (String.eqb name) (splitTags (Deal.AssociatedCompany d))))
    deals.

End LineNotions.

(** What the validator keeps for one company: as many deals as lines,
    totals that are the sums over the lines, and no more won deals than
    deals. *)
Definition analysisOk (k : string) (a : Mapper.Analysis.t) : Prop :=
  Mapper.Analysis.companyName a = k
  /\ Mapper.Analysis.dealCount a = List.length (Mapper.Analysis.deals a)
  /\ exists b p,
       Mapper.Analysis.totalMediaBudget a = Fin b
       /\ (b == sumQ (map (fun l => quantity (Mapper.dl_mediaBudget l))
                        (Mapper.Analysis.deals a)))%Q
       /\ Mapper.Analysis.totalPOAmount a = Fin p
       /\ (p == sumQ (map (fun l => quantity (Mapper.dl_poAmount l))
                        (Mapper.Analysis.deals a)))%Q.

Definition analysisDictOk (analysis : list (string * Mapper.Analysis.t)) : Prop :=
  NoDup (map fst analysis)
  /\ forall k a, In (k, a) analysis ->
       analysisOk k a /\ 1 <= Mapper.Analysis.dealCount a.

(** The same on an emitted company. *)
Definition itemOk (item : Mapper.RevenueItem.t) : Prop :=
  let n := Mapper.RevenueItem.dealCount item in
  n = List.length (Mapper.RevenueItem.deals item)
  /\ 1 <= n
  /\ isPercent (Mapper.RevenueItem.winRate item)
  /\ exists b p avgB avgP,
       Mapper.RevenueItem.totalMediaBudget item = Fin b
       /\ (b == sumQ (map (fun l => quantity (Mapper.dl_mediaBudget l))
                        (Mapper.RevenueItem.deals item)))%Q
       /\ Mapper.RevenueItem.totalPOAmount item = Fin p
       /\ (p == sumQ (map (fun l => quantity (Mapper.dl_poAmount l))
                        (Mapper.RevenueItem.deals item)))%Q
       /\ (0 < b \/ 0 < p)%Q
       /\ Mapper.RevenueItem.avgMediaBudget item = Fin avgB
       /\ (avgB * inject_Z (Z.of_nat n) == b)%Q
       /\ Mapper.RevenueItem.avgPOAmount item = Fin avgP
       /\ (avgP * inject_Z (Z.of_nat n) == p)%Q.

(** The bar the win-rate chart draws for a company. *)
Definition barOf (company : Mapper.RevenueItem.t) : Mapper.WinRateBar :=
  Mapper.mkWinRateBar (Mapper.shortName (Mapper.RevenueItem.companyName company))
    (Mapper.RevenueItem.winRate company) (Mapper.RevenueItem.dealCount company)
    (Mapper.RevenueItem.wonDeals company).

Definition chartable (company : Mapper.RevenueItem.t) : bool :=
  Nat.leb 3 (Mapper.RevenueItem.dealCount company).


Section LegacyNotions.
Context {host : Host}.

(** The deals the identifier-keyed validator files under a key: those
    whose reference is resolved and reads as the key. *)
Definition filedUnderId (companies : list Company.t) (key : string) (deal : Deal.t)
  : bool :=
  refersTo companies deal
  && String.eqb (ToString (Deal.AssociatedCompanyIDsPrimary deal)) key.

End LegacyNotions.

(** What the identifier-keyed validator keeps for one company. *)
Definition legacyAnalysisOk (a : Legacy.Analysis.t) : Prop :=
  Legacy.Analysis.wonDeals a + Legacy.Analysis.openDeals a <= Legacy.Analysis.dealCount a
  /\ Legacy.Analysis.dealCount a = List.length (Legacy.Analysis.deals a)
  /\ 1 <= Legacy.Analysis.dealCount a.

(** The deal count kept under a key, 0 when there is none. *)
Definition legacyCount (analysis : list (string * Legacy.Analysis.t)) (key : string) : nat :=
  match lookup key analysis with
  | Some a => Legacy.Analysis.dealCount a
  | None => 0
  end.

(** A number is absent ([NaN]) or satisfies a property. *)
Definition nanOr (P : Q -> Prop) (n : num) : Prop :=
  match n with
  | NaN => True
  | Fin q => P q
  end.


Section AttributionNotions.
Context {host : Host}.


End AttributionNotions.

(** A tag as [splitTags] leaves it: not empty, without white space at
    either end and without semicolon. *)
Definition cleanTag (tag : string) : Prop :=
  nonEmpty tag = true
  /\ trim tag = tag
  /\ ~ In ";"%char (list_ascii_of_string tag).

(** *** Tables *)

(** The deal and the company of the worked example of the specification. *)
Definition acmeDeal : Deal.t :=
  Deal.make (VNum (Fin 1%Q)) VUndef (VNum (Fin 5000%Q)) VUndef (VStr "Acme;Zed")
    (VStr "Closed Won") VUndef VUndef VUndef VUndef (VStr "10") VUndef.

Definition acmeCorp : Company.t :=
  Company.make (VStr "10") (VStr "Acme Corp") (VStr "acme.com") VUndef.

(** Two companies of one root domain, and a deal linked to the second. *)
Definition acmeWww : Company.t :=
  Company.make (VNum (Fin 20%Q)) (VStr "Acme") (VStr "www.acme.com") (VNum (Fin 900%Q)).

Definition acmeShop : Company.t :=
  Company.make (VNum (Fin 21%Q)) (VStr "Acme Shop") (VStr "shop.acme.com")
    (VNum (Fin 100%Q)).

Definition shopDeal : Deal.t :=
  Deal.make (VNum (Fin 5%Q)) (VStr "Shop launch") (VNum (Fin 300%Q)) (VNum (Fin 250%Q))
    (VStr "Acme") (VStr "Closed Lost") (VStr "Sales") VUndef VUndef VUndef
    (VNum (Fin 21%Q)) (VStr "Acme Shop; Acme").

(** The first of the two exported a second time, under its other domain. *)
Definition acmeTwin : Company.t :=
  Company.make (VNum (Fin 20%Q)) (VStr "Acme") (VStr "shop.acme.com") (VNum (Fin 900%Q)).


(** A company whose domain column holds a number. *)
Definition numberedCompany : Company.t :=
  Company.make (VNum (Fin 3%Q)) (VStr "Numbers Inc") (VNum (Fin 12345%Q)) VUndef.

(** A company that declares a negative revenue, and a deal linked to it. *)
Definition indebtedCompany : Company.t :=
  Company.make (VNum (Fin 10%Q)) (VStr "Debt Ltd") VUndef (VNum (Fin (-100)%Q)).

Definition indebtedDeal : Deal.t :=
  Deal.make (VNum (Fin 1%Q)) (VStr "Renewal") (VNum (Fin 50%Q)) VUndef VUndef
    (VStr "Closed Won") VUndef VUndef VUndef VUndef (VNum (Fin 10%Q)) VUndef.

(** The same company declaring 100. *)
Definition halfCompany : Company.t :=
  Company.make (VNum (Fin 10%Q)) (VStr "Half Ltd") VUndef (VNum (Fin 100%Q)).

(** A deal with a brand and a close date that is not a date, and the same
    deal dated. *)
Definition undatedDeal : Deal.t :=
  Deal.make (VNum (Fin 2%Q)) (VStr "Spring campaign") (VNum (Fin 5000%Q)) VUndef
    (VStr "Acme") (VStr "Proposal") VUndef (VStr "TBD") VUndef VUndef VUndef VUndef.

Definition datedDeal : Deal.t :=
  Deal.make (VNum (Fin 2%Q)) (VStr "Spring campaign") (VNum (Fin 5000%Q)) VUndef
    (VStr "Acme") (VStr "Proposal") VUndef (VStr "2025-05-29") VUndef VUndef VUndef
    VUndef.

(** A deal whose budget is not a number. *)
Definition unpricedDeal : Deal.t :=
  Deal.make (VNum (Fin 4%Q)) (VStr "Autumn campaign") (VStr "tbc") VUndef VUndef
    (VStr "Proposal") VUndef VUndef VUndef VUndef VUndef VUndef.

(** A deal whose stage column holds a number, and one whose name does. *)
Definition numericStageDeal : Deal.t :=
  Deal.make (VNum (Fin 3%Q)) (VStr "Numbered") (VNum (Fin 10%Q)) VUndef VUndef
    (VNum (Fin 4%Q)) VUndef VUndef VUndef VUndef VUndef (VStr "Acme Corp").

Definition numericNameDeal : Deal.t :=
  Deal.make (VNum (Fin 1%Q)) (VNum (Fin 2024%Q)) (VNum (Fin 5000%Q)) VUndef VUndef
    (VStr "Closed Won") VUndef VUndef VUndef VUndef (VStr "10") VUndef.

(** * Properties *)

(** ** Lists and dictionaries *)

Lemma flat_map_nil {A B} (f : A -> list B) (xs : list A) :
  (forall x, In x xs -> f x = []) -> flat_map f xs = [].
Proof.
  induction xs as [|x xs IH]; intros H; simpl; auto.
  rewrite (H x) by (left; reflexivity). apply IH.
  intros y Hy. apply H. right; exact Hy.
Qed.

Lemma length_zero_nil {A} (xs : list A) :
  Nat.eqb (List.length xs) 0 = true -> xs = [].
Proof. destruct xs; simpl; [reflexivity | discriminate]. Qed.

Lemma existsb_find {A} (p : A -> bool) (xs : list A) :
  existsb p xs = match find p xs with Some _ => true | None => false end.
Proof.
  induction xs as [|x xs IH]; simpl; [reflexivity|].
  destruct (p x); simpl; [reflexivity | exact IH].
Qed.

Lemma fold_left_emit {A B} (body : list B -> A -> list B) (f : A -> list B) :
  (forall acc x, body acc x = acc ++ f x) ->
  forall xs init, fold_left body xs init = init ++ flat_map f xs.
Proof.
  intros H xs; induction xs as [|x xs IH]; intros init; simpl.
  - now rewrite app_nil_r.
  - rewrite IH, H. now rewrite app_assoc.
Qed.

Lemma Forall_flat_map_intro {A B} (P : B -> Prop) (f : A -> list B) (xs : list A) :
  (forall x, In x xs -> Forall P (f x)) -> Forall P (flat_map f xs).
Proof.
  induction xs as [|x xs IH]; intros H; simpl; [constructor|].
  apply Forall_app. split; [apply H; now left | apply IH; intros; apply H; now right].
Qed.

Lemma flat_map_singletons {A B} (p : A -> bool) (g : A -> B) (xs : list A) :
  flat_map (fun x => if p x then [g x] else []) xs = map g (filter p xs).
Proof.
  induction xs as [|x xs IH]; simpl; [reflexivity|].
  destruct (p x); simpl; now rewrite IH.
Qed.

Lemma filter_length_count {A} (p : A -> bool) (l : list A) :
  List.length (filter p l) = count_occ Bool.bool_dec (map p l) true.
Proof.
  induction l as [|x l IH]; simpl; [reflexivity|].
  destruct (p x); simpl; [now rewrite IH|].
  destruct (Bool.bool_dec false true); [discriminate | exact IH].
Qed.

Lemma filter_all {A} (p : A -> bool) (l : list A) :
  (forall x, In x l -> p x = true) -> filter p l = l.
Proof.
  induction l as [|x l IH]; intros H; simpl; [reflexivity|].
  rewrite (H x) by now left. f_equal. apply IH. intros; apply H; now right.
Qed.

Lemma filter_none {A} (p : A -> bool) (l : list A) :
  (forall x, In x l -> p x = false) -> filter p l = [].
Proof.
  induction l as [|x l IH]; intros H; simpl; [reflexivity|].
  rewrite (H x) by now left. apply IH. intros; apply H; now right.
Qed.

Lemma lookup_assign_eq {V} k (v : V) o : lookup k (assign k v o) = Some v.
Proof.
  induction o as [|[k' v'] o IH]; simpl.
  - now rewrite String.eqb_refl.
  - destruct (String.eqb k' k) eqn:E; simpl; rewrite E; [reflexivity | exact IH].
Qed.

Lemma lookup_assign_neq {V} k k' (v : V) o :
  k <> k' -> lookup k' (assign k v o) = lookup k' o.
Proof.
  intros N. induction o as [|[k0 v0] o IH]; simpl.
  - destruct (String.eqb k k') eqn:E; [apply String.eqb_eq in E; contradiction|].
    reflexivity.
  - destruct (String.eqb k0 k) eqn:E; simpl.
    + apply String.eqb_eq in E. subst k0.
      destruct (String.eqb k k') eqn:E'; [apply String.eqb_eq in E'; contradiction|].
      reflexivity.
    + destruct (String.eqb k0 k'); [reflexivity | exact IH].
Qed.

Lemma lookup_In {V} k (v : V) o : lookup k o = Some v -> In (k, v) o.
Proof.
  induction o as [|[k' v'] o IH]; simpl; [discriminate|].
  destruct (String.eqb k' k) eqn:E.
  - apply String.eqb_eq in E. intros [= ->]. left. now subst.
  - intros H. right. now apply IH.
Qed.

Lemma In_lookup {V} k (v : V) o :
  NoDup (map fst o) -> In (k, v) o -> lookup k o = Some v.
Proof.
  induction o as [|[k' v'] o IH]; simpl; [intros _ []|].
  intros ND [H|H].
  - injection H as -> ->. now rewrite String.eqb_refl.
  - inversion ND as [|? ? Hnotin ND']; subst.
    destruct (String.eqb k' k) eqn:E.
    + apply String.eqb_eq in E. subst k'. exfalso. apply Hnotin.
      apply in_map_iff. now exists (k, v).
    + now apply IH.
Qed.

Lemma assign_keys {V} k (v : V) o :
  map fst (assign k v o)
  = match lookup k o with
    | Some _ => map fst o
    | None => map fst o ++ [k]
    end.
Proof.
  induction o as [|[k' v'] o IH]; simpl; [reflexivity|].
  destruct (String.eqb k' k) eqn:E; simpl; [reflexivity|].
  rewrite IH. destruct (lookup k o); reflexivity.
Qed.

Lemma lookup_None_keys {V} k (o : list (string * V)) :
  lookup k o = None -> ~ In k (map fst o).
Proof.
  induction o as [|[k' v'] o IH]; simpl; [tauto|].
  destruct (String.eqb k' k) eqn:E; [discriminate|].
  intros H [->|Hin]; [now rewrite String.eqb_refl in E | now apply IH].
Qed.

Lemma assign_NoDup {V} k (v : V) o :
  NoDup (map fst o) -> NoDup (map fst (assign k v o)).
Proof.
  intros ND. rewrite assign_keys. destruct (lookup k o) eqn:L; [exact ND|].
  apply NoDup_app; [exact ND | repeat constructor; intros [] |].
  intros x Hx [<-|[]]. now apply (lookup_None_keys _ _ L).
Qed.

Lemma In_assign {V} k (v : V) o k' v' :
  In (k', v') (assign k v o) -> (k' = k /\ v' = v) \/ In (k', v') o.
Proof.
  induction o as [|[k0 v0] o IH]; simpl.
  - intros [[= <- <-]|[]]. now left.
  - destruct (String.eqb k0 k) eqn:E; simpl.
    + apply String.eqb_eq in E. subst k0. intros [[= <- <-]|H]; [now left|].
      right. now right.
    + intros [[= <- <-]|H]; [right; now left|].
      destruct (IH H) as [?|?]; [now left | right; now right].
Qed.

(** ** Loops that may throw *)

Lemma forEachM_inv {A S} (P : S -> Prop) (f : S -> A -> result S) (xs : list A) :
  (forall s x s', In x xs -> P s -> f s x = Ok s' -> P s') ->
  forall s s', P s -> forEachM f xs s = Ok s' -> P s'.
Proof.
  induction xs as [|x xs IH]; intros H s s' Hs; simpl.
  - now intros [= <-].
  - destruct (f s x) as [s1|e] eqn:E; simpl; [|discriminate].
    apply IH; [intros; eapply H; eauto; now right|].
    eapply H; eauto. now left.
Qed.


Lemma forEachM_throws {A S} (f : S -> A -> result S) (xs : list A) (x : A) (e : Exn) :
  In x xs ->
  (forall s, f s x = Throw e) ->
  (forall s y e', f s y = Throw e' -> e' = e) ->
  forall s, forEachM f xs s = Throw e.
Proof.
  intros Hin Hx Hkind. induction xs as [|y xs IH]; intros s; simpl; [destruct Hin|].
  destruct (f s y) as [s1|e'] eqn:E; simpl.
  - destruct Hin as [->|Hin]; [rewrite Hx in E; discriminate | now apply IH].
  - now rewrite (Hkind _ _ _ E).
Qed.

Lemma forEachM_kind {A S} (f : S -> A -> result S) (xs : list A) (e0 : Exn) :
  (forall s x e, f s x = Throw e -> e = e0) ->
  forall s e, forEachM f xs s = Throw e -> e = e0.
Proof.
  intros H. induction xs as [|x xs IH]; intros s e; simpl; [discriminate|].
  destruct (f s x) as [s1|e1] eqn:E; simpl.
  - apply IH.
  - intros [= <-]. now apply H in E.
Qed.



(** ** Strings and values *)







Lemma strictEq_sym a b : strictEq a b = strictEq b a.
Proof.
  destruct a as [| |x|[|x]|x], b as [| |y|[|y]|y]; simpl; try reflexivity.
  - now destruct x, y.
  - unfold Qeq_bool. apply Z.eqb_sym.
  - apply String.eqb_sym.
Qed.

(** ** The Direct-ID resolver *)

Section DirectId.
Context {host : Host}.

Lemma refersTo_find companies deal :
  refersTo companies deal
  = hasReference (Deal.AssociatedCompanyIDsPrimary deal)
    && match find (Mapper.sameIdText (Deal.AssociatedCompanyIDsPrimary deal)) companies with
       | Some _ => true
       | None => false
       end.
Proof. unfold refersTo. now rewrite existsb_find. Qed.

Lemma directIdBody_acc companies ms n deal :
  Mapper.directIdBody companies (ms, n) deal
  = (ms ++ emitted companies deal,
     n + (if refersTo companies deal then 0 else 1)).
Proof.
  rewrite refersTo_find. unfold emitted, Mapper.directIdBody.
  destruct (hasReference (Deal.AssociatedCompanyIDsPrimary deal)); simpl.
  - destruct (find _ companies); simpl; rewrite ?app_nil_r; f_equal; lia.
  - rewrite app_nil_r. f_equal. lia.
Qed.

Lemma directIdLoop_acc companies deals ms n :
  fold_left (Mapper.directIdBody companies) deals (ms, n)
  = (ms ++ flat_map (emitted companies) deals,
     n + List.length (filter (fun d => negb (refersTo companies d)) deals)).
Proof.
  revert ms n; induction deals as [|d deals IH]; intros ms n; cbn [fold_left].
  - simpl. rewrite app_nil_r. f_equal. lia.
  - rewrite directIdBody_acc, IH, <- app_assoc. simpl. f_equal.
    destruct (refersTo companies d); simpl; lia.
Qed.

Lemma emitted_length companies deal :
  List.length (emitted companies deal) = if refersTo companies deal then 1 else 0.
Proof.
  rewrite refersTo_find. unfold emitted, Mapper.directIdBody.
  destruct (hasReference (Deal.AssociatedCompanyIDsPrimary deal)); simpl;
    [|reflexivity].
  destruct (find _ companies); reflexivity.
Qed.

Lemma emitted_content companies deal m :
  In m (emitted companies deal) ->
  Mapper.Mapping.dealId m = Deal.RecordID deal
  /\ Mapper.Mapping.confidence m = Fin 100%Q
  /\ exists company,
       In company companies
       /\ Mapper.Mapping.companyId m = Company.RecordID company
       /\ ToString (Company.RecordID company)
          = ToString (Deal.AssociatedCompanyIDsPrimary deal).
Proof.
  unfold emitted, Mapper.directIdBody.
  destruct (hasReference _); simpl; [|tauto].
  destruct (find _ companies) as [c|] eqn:F; simpl; [|tauto].
  intros [<-|[]]. simpl. repeat split.
  apply find_some in F. destruct F as [Hin Heq].
  exists c. repeat split; auto.
  unfold Mapper.sameIdText in Heq. now apply String.eqb_eq in Heq.
Qed.

Lemma directIdLoop_eq deals companies :
  Mapper.directIdLoop deals companies
  = (flat_map (emitted companies) deals,
     List.length (filter (fun d => negb (refersTo companies d)) deals)).
Proof. unfold Mapper.directIdLoop. rewrite directIdLoop_acc. reflexivity. Qed.

Lemma directIdMapping_flat_map deals companies :
  Mapper.directIdMapping deals companies = flat_map (emitted companies) deals.
Proof.
  unfold Mapper.directIdMapping.
  destruct (Nat.eqb (List.length deals) 0) eqn:D; simpl.
  - apply length_zero_nil in D. subst. reflexivity.
  - destruct (Nat.eqb (List.length companies) 0) eqn:C.
    + apply length_zero_nil in C. subst. symmetry. apply flat_map_nil.
      intros d _. pose proof (emitted_length [] d) as H.
      unfold refersTo in H. simpl in H. rewrite andb_false_r in H.
      destruct (emitted [] d); [reflexivity | discriminate].
    + rewrite directIdLoop_eq. reflexivity.
Qed.

Lemma legacy_directId_flat_map deals companies :
  Legacy.directIdMapping deals companies = flat_map (legacyEmitted companies) deals.
Proof.
  assert (B : forall acc d, Legacy.directIdBody companies acc d
                            = acc ++ legacyEmitted companies d).
  { intros acc d. unfold legacyEmitted, Legacy.directIdBody.
    destruct (hasReference _); [|now rewrite app_nil_r].
    destruct (find _ companies); [reflexivity | now rewrite app_nil_r]. }
  unfold Legacy.directIdMapping.
  destruct (Nat.eqb (List.length deals) 0) eqn:D; simpl.
  - apply length_zero_nil in D. subst. reflexivity.
  - destruct (Nat.eqb (List.length companies) 0) eqn:C.
    + apply length_zero_nil in C. subst. symmetry. apply flat_map_nil.
      intros d _. unfold legacyEmitted, Legacy.directIdBody.
      destruct (hasReference _); reflexivity.
    + rewrite (fold_left_emit _ _ B). reflexivity.
Qed.

Lemma legacyEmitted_confidence companies deal m :
  In m (legacyEmitted companies deal) -> Legacy.Mapping.confidence m = Fin 100%Q.
Proof.
  unfold legacyEmitted, Legacy.directIdBody.
  destruct (hasReference _); [|intros []].
  destruct (find _ companies); [|intros []].
  intros [<-|[]]. reflexivity.
Qed.

Lemma legacyEmitted_length companies deal :
  List.length (legacyEmitted companies deal) = if refersTo companies deal then 1 else 0.
Proof.
  rewrite refersTo_find. unfold legacyEmitted, Legacy.directIdBody.
  change Legacy.sameIdText with Mapper.sameIdText.
  destruct (hasReference (Deal.AssociatedCompanyIDsPrimary deal)); simpl;
    [|reflexivity].
  destruct (find _ companies); reflexivity.
Qed.

(** C2. The Direct-ID resolver is the concatenation, deal by deal, of what
    the loop emits for each deal; a deal emits exactly one Mapping when its
    primary-company reference is not blank and reads like the identifier of
    some company, and none otherwise, in which case it is counted as
    unmapped; so no deal has more than one Mapping. An emitted Mapping
    pairs the deal with a company whose identifier reads like the
    reference. The older variant emits by the same rule. *)
Theorem directId_one_mapping_per_referring_deal
    (deals : list Deal.t) (companies : list Company.t) (deal : Deal.t) :
  Mapper.directIdMapping deals companies = flat_map (emitted companies) deals
  /\ List.length (emitted companies deal) = (if refersTo companies deal then 1 else 0)
  /\ List.length (emitted companies deal) <= 1
  /\ Forall (fun m => Mapper.Mapping.dealId m = Deal.RecordID deal
                      /\ ToString (Mapper.Mapping.companyId m)
                         = ToString (Deal.AssociatedCompanyIDsPrimary deal))
       (emitted companies deal)
  /\ snd (Mapper.directIdLoop deals companies)
     = List.length (filter (fun d => negb (refersTo companies d)) deals)
  /\ List.length (fst (Mapper.directIdLoop deals companies))
     + snd (Mapper.directIdLoop deals companies) = List.length deals
  /\ Legacy.directIdMapping deals companies = flat_map (legacyEmitted companies) deals
  /\ List.length (legacyEmitted companies deal)
     = (if refersTo companies deal then 1 else 0).
Proof.
  pose proof (directIdLoop_eq deals companies) as L.
  split; [|split; [|split; [|split; [|split; [|split; [|split]]]]]].
  - apply directIdMapping_flat_map.
  - apply emitted_length.
  - rewrite emitted_length. destruct (refersTo companies deal); lia.
  - apply Forall_forall. intros m Hm.
    destruct (emitted_content companies deal m Hm) as (Hd & _ & c & _ & Hc & Ht).
    split; [exact Hd | now rewrite Hc].
  - rewrite L. reflexivity.
  - rewrite L. simpl. clear L.
    induction deals as [|d ds IH]; simpl; [reflexivity|].
    rewrite length_app, emitted_length.
    destruct (refersTo companies d); simpl; lia.
  - apply legacy_directId_flat_map.
  - apply legacyEmitted_length.
Qed.

End DirectId.

(** ** Relationships and confidence *)

Section Domain.
Context {host : Host}.

Lemma childBody_fold domain parent cs rels :
  fold_left (Mapper.childBody domain parent) cs rels
  = rels ++ map (Mapper.relationshipOf domain parent)
              (filter (Mapper.isChildOf parent) cs).
Proof.
  rewrite <- flat_map_singletons.
  apply fold_left_emit. intros acc c. unfold Mapper.childBody.
  destruct (Mapper.isChildOf parent c); [reflexivity | now rewrite app_nil_r].
Qed.

Lemma entryBody_acc mappings rels entry :
  Mapper.entryBody mappings rels entry = rels ++ groupRelationships mappings entry.
Proof.
  unfold groupRelationships, Mapper.entryBody. destruct entry as [domain group].
  destruct (Nat.ltb 1 (List.length group)); [|now rewrite app_nil_r].
  destruct (Mapper.parentOf mappings group); [|now rewrite app_nil_r].
  now rewrite !childBody_fold.
Qed.

Lemma domainMapping_flat_map companies mappings :
  Mapper.domainMapping companies mappings
  = flat_map (groupRelationships mappings) (Mapper.domainGroups companies).
Proof.
  unfold Mapper.domainMapping.
  rewrite (fold_left_emit _ _ (entryBody_acc mappings)). reflexivity.
Qed.

Lemma groupRelationships_inv mappings domain group r :
  In r (groupRelationships mappings (domain, group)) ->
  Mapper.DomainRelationship.confidence r = Fin 75%Q
  /\ Mapper.DomainRelationship.domain r = domain.
Proof.
  unfold groupRelationships, Mapper.entryBody.
  destruct (Nat.ltb 1 (List.length group)); [|intros []].
  destruct (Mapper.parentOf mappings group); [|intros []].
  rewrite childBody_fold. simpl. rewrite in_map_iff.
  intros (c & <- & _). split; reflexivity.
Qed.

Lemma legacy_childBody_fold domain parent cs rels :
  fold_left (Legacy.childBody domain parent) cs rels
  = rels ++ map (Legacy.relationshipOf domain parent)
              (filter (fun c => negb (strictEq (Company.RecordID c)
                                        (Company.RecordID parent))) cs).
Proof.
  rewrite <- flat_map_singletons.
  apply fold_left_emit. intros acc c. unfold Legacy.childBody.
  destruct (negb _); [reflexivity | now rewrite app_nil_r].
Qed.

Lemma legacy_entryBody_confidence rels entry :
  Forall (fun r => Legacy.DomainRelationship.confidence r = Fin 75%Q) rels ->
  Forall (fun r => Legacy.DomainRelationship.confidence r = Fin 75%Q)
    (Legacy.entryBody rels entry).
Proof.
  intros H. unfold Legacy.entryBody. destruct entry as [domain group].
  destruct (Nat.ltb 1 (List.length group)); [|exact H].
  destruct group as [|first rest]; [exact H|].
  rewrite legacy_childBody_fold. apply Forall_app. split; [exact H|].
  apply Forall_forall. intros r Hr. apply in_map_iff in Hr.
  destruct Hr as (c & <- & _). reflexivity.
Qed.

(** C9. Every Mapping of the Direct-ID resolver has confidence 100 and
    every DomainRelationship of the Domain Clustering Resolver has
    confidence 75, whatever the tables, in the component and in its older
    variant alike. *)
Theorem confidence_is_a_constant_per_resolver
    (deals : list Deal.t) (companies : list Company.t)
    (mappings : list Mapper.Mapping.t) :
  Forall (fun m => Mapper.Mapping.confidence m = Fin 100%Q)
    (Mapper.directIdMapping deals companies)
  /\ Forall (fun r => Mapper.DomainRelationship.confidence r = Fin 75%Q)
       (Mapper.domainMapping companies mappings)
  /\ Forall (fun m => Legacy.Mapping.confidence m = Fin 100%Q)
       (Legacy.directIdMapping deals companies)
  /\ match Legacy.domainMapping companies with
     | Ok relationships =>
         Forall (fun r => Legacy.DomainRelationship.confidence r = Fin 75%Q)
           relationships
     | Throw _ => True
     end.
Proof.
  split; [|split; [|split]].
  - rewrite directIdMapping_flat_map. apply Forall_flat_map_intro. intros d _.
    apply Forall_forall. intros m Hm. now apply emitted_content in Hm.
  - rewrite domainMapping_flat_map. apply Forall_flat_map_intro.
    intros [domain group] _. apply Forall_forall. intros r Hr.
    now apply groupRelationships_inv in Hr.
  - rewrite legacy_directId_flat_map. apply Forall_flat_map_intro. intros d _.
    apply Forall_forall. intros m Hm. now apply legacyEmitted_confidence in Hm.
  - unfold Legacy.domainMapping.
    destruct (forEachM Legacy.groupBody companies []) as [groups|e]; simpl; [|exact I].
    assert (G : forall gs rels,
               Forall (fun r => Legacy.DomainRelationship.confidence r = Fin 75%Q) rels ->
               Forall (fun r => Legacy.DomainRelationship.confidence r = Fin 75%Q)
                 (fold_left Legacy.entryBody gs rels)).
    { induction gs as [|g gs IH]; intros rels H; simpl; [exact H|].
      apply IH. now apply legacy_entryBody_confidence. }
    apply G. constructor.
Qed.

End Domain.

(** ** Root domains and groups *)



Lemma groupBody_ok companies groups c :
  In c companies -> groupsOk companies groups ->
  groupsOk companies (Mapper.groupBody groups c).
Proof.
  intros Hc [ND Hmem]. unfold Mapper.groupBody.
  destruct (Mapper.usableDomain (Company.CompanyDomainName c)) as [d|] eqn:U;
    [|split; assumption].
  split; [now apply assign_NoDup|].
  intros k g c' Hin Hc'. apply In_assign in Hin. destruct Hin as [[-> ->]|Hin].
  - apply in_app_or in Hc'. destruct Hc' as [Hold|[<-|[]]].
    + destruct (lookup (Mapper.rootDomainOf d) groups) as [g0|] eqn:L; [|destruct Hold].
      apply (Hmem _ g0); [now apply lookup_In | exact Hold].
    + split; [exact Hc | now exists d].
  - now apply (Hmem k g).
Qed.

Lemma domainGroups_fold_ok companies l groups :
  (forall c, In c l -> In c companies) -> groupsOk companies groups ->
  groupsOk companies (fold_left Mapper.groupBody l groups).
Proof.
  revert groups; induction l as [|c l IH]; intros groups Hl Hok; simpl; [exact Hok|].
  apply IH; [intros; apply Hl; now right|].
  apply groupBody_ok; [apply Hl; now left | exact Hok].
Qed.

Lemma domainGroups_ok companies : groupsOk companies (Mapper.domainGroups companies).
Proof.
  apply domainGroups_fold_ok; [auto|]. split; [constructor | intros ? ? ? []].
Qed.







(** ** The parent of a group *)

Section Parent.
Context {host : Host}.
Variable mappings : list Mapper.Mapping.t.

Lemma declaredRevenue_Fin c : declaredRevenue c = Fin (revenueQ c).
Proof.
  unfold revenueQ, declaredRevenue, numOr0.
  destruct (parseFloat (Company.TotalRevenue c)) as [|q]; [reflexivity|].
  destruct (isZero q); reflexivity.
Qed.

Lemma withMetrics_dealCount c :
  Mapper.WithMetrics.dealCount (Mapper.withMetrics mappings c) = resolvedDeals mappings c.
Proof. unfold Mapper.withMetrics, resolvedDeals. simpl. apply filter_length_count. Qed.

Lemma outranks_iff a b : outranks mappings a b = true <-> rankedBelow mappings b a.
Proof.
  unfold outranks, rankedBelow. rewrite !declaredRevenue_Fin. simpl.
  rewrite orb_true_iff, andb_true_iff, Nat.ltb_lt, Nat.eqb_eq, negb_true_iff.
  split; (intros [H|[H1 H2]]; [now left | right; split; [now symmetry|]]).
  - apply Qnot_le_lt. intros Hle. apply Qle_bool_iff in Hle. congruence.
  - destruct (Qle_bool (revenueQ a) (revenueQ b)) eqn:E; [|reflexivity].
    apply Qle_bool_iff in E. exfalso. apply (Qlt_not_le _ _ H2 E).
Qed.

Lemma outranks_false_iff a b : outranks mappings a b = false <-> ~ rankedBelow mappings b a.
Proof.
  rewrite <- outranks_iff. destruct (outranks mappings a b); split; congruence.
Qed.

Lemma outranks_irrefl a : outranks mappings a a = false.
Proof.
  apply outranks_false_iff. intros [H|[_ H]]; [lia | now apply Qlt_irrefl in H].
Qed.

Lemma outranks_above x p c :
  outranks mappings x p = true -> outranks mappings c p = false ->
  outranks mappings x c = true /\ outranks mappings c x = false.
Proof.
  rewrite outranks_false_iff, !outranks_iff. unfold rankedBelow.
  intros Hx Hc.
  assert (Hle : resolvedDeals mappings c <= resolvedDeals mappings p) by lia.
  assert (Hq : resolvedDeals mappings c = resolvedDeals mappings p ->
               (revenueQ c <= revenueQ p)%Q).
  { intros E. apply Qnot_lt_le. intros Hlt. apply Hc. right. split; [now symmetry | exact Hlt]. }
  split.
  - destruct Hx as [Hx|[He Hx]].
    + left. lia.
    + destruct (Nat.eq_dec (resolvedDeals mappings c) (resolvedDeals mappings p)) as [E|E].
      * right. split; [lia|]. apply Qle_lt_trans with (revenueQ p); auto.
      * left. lia.
  - apply outranks_false_iff. unfold rankedBelow. intros [H|[He H]].
    + destruct Hx as [Hx|[He' Hx]]; lia.
    + destruct Hx as [Hx|[He' Hx]]; [lia|].
      assert (E : resolvedDeals mappings c = resolvedDeals mappings p) by lia.
      specialize (Hq E).
      apply (Qlt_irrefl (revenueQ x)).
      apply Qlt_le_trans with (revenueQ c); [exact H|].
      apply Qle_trans with (revenueQ p); [exact Hq | now apply Qlt_le_weak].
Qed.

Lemma pickParent_outranks a b :
  Mapper.pickParent (Mapper.withMetrics mappings a) (Mapper.withMetrics mappings b)
  = if outranks mappings b a then Mapper.withMetrics mappings b
    else Mapper.withMetrics mappings a.
Proof.
  unfold Mapper.pickParent, outranks. rewrite !withMetrics_dealCount.
  unfold Mapper.withMetrics at 1 2. simpl. fold (declaredRevenue a) (declaredRevenue b).
  destruct (Nat.ltb (resolvedDeals mappings a) (resolvedDeals mappings b)); simpl;
    [reflexivity|].
  destruct (Nat.eqb _ _ && numGt _ _); reflexivity.
Qed.

Lemma firstBest_step seen p x :
  firstBest mappings seen p ->
  firstBest mappings (seen ++ [x]) (if outranks mappings x p then x else p).
Proof.
  intros (before & after & E & Hb & Ha).
  destruct (outranks mappings x p) eqn:O.
  - exists seen, []. split; [reflexivity|]. split.
    + intros c Hc. now apply (outranks_above x p c O (Ha c Hc)).
    + intros c Hc. apply in_app_or in Hc. destruct Hc as [Hc|[<-|[]]].
      * now apply (outranks_above x p c O (Ha c Hc)).
      * apply outranks_irrefl.
  - exists before, (after ++ [x]). split; [|split].
    + rewrite E. now rewrite <- app_assoc.
    + exact Hb.
    + intros c Hc. apply in_app_or in Hc. destruct Hc as [Hc|[<-|[]]]; auto.
Qed.

Lemma reduce_firstBest rest seen p :
  firstBest mappings seen p ->
  exists p',
    fold_left Mapper.pickParent (map (Mapper.withMetrics mappings) rest)
      (Mapper.withMetrics mappings p)
    = Mapper.withMetrics mappings p'
    /\ firstBest mappings (seen ++ rest) p'.
Proof.
  revert seen p; induction rest as [|x rest IH]; intros seen p H; simpl.
  - exists p. now rewrite app_nil_r.
  - rewrite pickParent_outranks.
    destruct (IH (seen ++ [x]) _ (firstBest_step seen p x H)) as (p' & E & H').
    exists p'. rewrite <- app_assoc in H'. simpl in H'. split; [|exact H'].
    rewrite <- E. now destruct (outranks mappings x p).
Qed.

Lemma parentOf_firstBest group :
  group <> [] ->
  exists p, Mapper.parentOf mappings group = Some (Mapper.withMetrics mappings p)
            /\ firstBest mappings group p.
Proof.
  destruct group as [|first rest]; [congruence|]. intros _.
  unfold Mapper.parentOf, Mapper.reduce1. simpl.
  destruct (reduce_firstBest rest [first] first) as (p & E & H).
  - exists [], []. split; [reflexivity|]. split; [intros ? []|].
    intros c [<-|[]]. apply outranks_irrefl.
  - exists p. now rewrite E.
Qed.

End Parent.

(** ** The relationships of a group *)

Section Children.
Context {host : Host}.

Lemma relationships_of_domain mappings entries domain group :
  NoDup (map fst entries) -> In (domain, group) entries ->
  filter (ofDomain domain) (flat_map (groupRelationships mappings) entries)
  = groupRelationships mappings (domain, group).
Proof.
  induction entries as [|[k g] entries IH]; simpl; [intros _ []|].
  intros ND Hin. inversion ND as [|? ? Hnotin ND']; subst.
  rewrite filter_app. destruct Hin as [[= -> ->]|Hin].
  - rewrite filter_all.
    + rewrite filter_none; [now rewrite app_nil_r|].
      intros r Hr. apply in_flat_map in Hr. destruct Hr as ([k' g'] & Hk & Hr).
      apply groupRelationships_inv in Hr. destruct Hr as [_ Hr].
      unfold ofDomain. rewrite Hr. apply String.eqb_neq. intros ->.
      apply Hnotin. apply in_map_iff. now exists (domain, g').
    + intros r Hr. apply groupRelationships_inv in Hr. destruct Hr as [_ Hr].
      unfold ofDomain. rewrite Hr. apply String.eqb_refl.
  - rewrite filter_none; [now apply IH|].
    intros r Hr. apply groupRelationships_inv in Hr. destruct Hr as [_ Hr].
    unfold ofDomain. rewrite Hr. apply String.eqb_neq. intros ->.
    apply Hnotin. apply in_map_iff. now exists (domain, group).
Qed.

Lemma distinctIds_app_inv before p after :
  distinctIds (before ++ p :: after) = true ->
  strictEq (Company.RecordID p) (Company.RecordID p) = true
  /\ forall c, In c (before ++ after) ->
               strictEq (Company.RecordID c) (Company.RecordID p) = false.
Proof.
  induction before as [|b before IH]; simpl.
  - rewrite !andb_true_iff. intros [[Hself Hall] _]. split; [exact Hself|].
    intros c Hc. rewrite forallb_forall in Hall. apply negb_true_iff. now apply Hall.
  - rewrite !andb_true_iff. intros [[_ Hall] Hrest].
    destruct (IH Hrest) as [Hself Hothers]. split; [exact Hself|].
    intros c [<-|Hc]; [|now apply Hothers].
    rewrite forallb_forall in Hall. rewrite strictEq_sym. apply negb_true_iff.
    apply Hall. apply in_or_app. right. now left.
Qed.

Lemma children_of_distinct mappings before p after :
  distinctIds (before ++ p :: after) = true ->
  filter (Mapper.isChildOf (Mapper.withMetrics mappings p)) (before ++ p :: after)
  = before ++ after.
Proof.
  intros D. destruct (distinctIds_app_inv before p after D) as [Hself Hothers].
  rewrite filter_app. simpl. unfold Mapper.isChildOf at 2. simpl. rewrite Hself. simpl.
  rewrite !filter_all; [reflexivity | |];
    intros c Hc; unfold Mapper.isChildOf; simpl; apply negb_true_iff; apply Hothers;
    apply in_or_app; [now right | now left].
Qed.

(** C3, as amended. In every root-domain group of at least two companies
    the parent is a member that no member outranks (none has more
    Direct-ID-resolved deals, nor as many and a higher declared revenue)
    and that outranks every member met before it; the relationships of the
    output under that domain are, in order, exactly one per member whose
    identifier differs from the parent's, all with that parent. When the
    identifiers of the group are pairwise different these members are all
    the other members of the group. *)
Theorem parent_is_first_best_and_others_are_its_children
    (companies : list Company.t) (mappings : list Mapper.Mapping.t)
    (domain : string) (group : list Company.t)
    (Hgroup : In (domain, group) (Mapper.domainGroups companies))
    (Hsize : 2 <= List.length group) :
  exists parent before after,
    Mapper.parentOf mappings group = Some (Mapper.withMetrics mappings parent)
    /\ group = before ++ parent :: after
    /\ (forall c, In c group -> outranks mappings c parent = false)
    /\ (forall c, In c before -> outranks mappings parent c = true)
    /\ filter (ofDomain domain) (Mapper.domainMapping companies mappings)
       = map (Mapper.relationshipOf domain (Mapper.withMetrics mappings parent))
           (filter (Mapper.isChildOf (Mapper.withMetrics mappings parent)) group)
    /\ (distinctIds group = true ->
        filter (ofDomain domain) (Mapper.domainMapping companies mappings)
        = map (Mapper.relationshipOf domain (Mapper.withMetrics mappings parent))
            (before ++ after)).
Proof.
  assert (Hne : group <> []) by (destruct group; [simpl in Hsize; lia | congruence]).
  destruct (parentOf_firstBest mappings group Hne)
    as (p & Hp & before & after & E & Hb & Ha).
  assert (R : filter (ofDomain domain) (Mapper.domainMapping companies mappings)
              = map (Mapper.relationshipOf domain (Mapper.withMetrics mappings p))
                  (filter (Mapper.isChildOf (Mapper.withMetrics mappings p)) group)).
  { rewrite domainMapping_flat_map.
    rewrite (relationships_of_domain mappings _ domain group
               (proj1 (domainGroups_ok companies)) Hgroup).
    unfold groupRelationships, Mapper.entryBody.
    replace (Nat.ltb 1 (List.length group)) with true
      by (symmetry; apply Nat.ltb_lt; lia).
    rewrite Hp. now rewrite childBody_fold. }
  exists p, before, after. repeat split; auto.
  intros D. rewrite R. f_equal. rewrite E in D |- *.
  now apply children_of_distinct.
Qed.

End Children.

(** ** The free-text filter *)

Section Filter.
Context {host : Host}.









End Filter.

(** ** Total revenue *)

Section Totals.
Context {host : Host}.





End Totals.

(** ** Brand attribution *)

Section Brands.
Context {host : Host}.

Lemma brandsOf_nonEmpty deal brand : In brand (Mapper.brandsOf deal) -> nonEmpty brand = true.
Proof.
  unfold Mapper.brandsOf, splitTags. destruct (Deal.CampaignBrand deal); try (intros []).
  destruct (nonEmpty s); [|intros []]. intros H. now apply filter_In in H.
Qed.












End Brands.

(** ** The Revenue Validator keyed by company name *)

Section NameKeyed.
Context {host : Host}.

Lemma lookup_balanced analysis name :
  allBalanced analysis ->
  balancedAnalysis (getOr (Mapper.emptyAnalysis name) (lookup name analysis)).
Proof.
  intros H. destruct (lookup name analysis) as [a|] eqn:L; simpl.
  - apply (H name). now apply lookup_In.
  - reflexivity.
Qed.

Lemma analysisBody_balanced deal budget po stage won analysis name analysis' :
  allBalanced analysis ->
  Mapper.analysisBody deal budget po stage won analysis name = Ok analysis' ->
  allBalanced analysis'.
Proof.
  intros H. unfold Mapper.analysisBody.
  pose proof (lookup_balanced analysis name H) as B.
  set (a := getOr (Mapper.emptyAnalysis name) (lookup name analysis)) in *.
  unfold balancedAnalysis in B.
  destruct won; simpl.
  - intros [= <-]. intros k x Hin. apply In_assign in Hin.
    destruct Hin as [[_ ->]|Hin]; [|now apply (H k)].
    unfold balancedAnalysis; simpl; lia.
  - destruct (Mapper.stageHas stage "lost") as [[]|e]; simpl; [| |discriminate];
      intros [= <-]; intros k x Hin; apply In_assign in Hin;
      (destruct Hin as [[_ ->]|Hin]; [|now apply (H k)]);
      unfold balancedAnalysis; simpl; lia.
Qed.

Lemma analysisDealBody_balanced analysis deal analysis' :
  allBalanced analysis ->
  Mapper.analysisDealBody analysis deal = Ok analysis' ->
  allBalanced analysis'.
Proof.
  intros H. unfold Mapper.analysisDealBody.
  destruct (if strictEq (Deal.IsClosedWon deal) (VBool true) then Ok true
            else Mapper.stageHas (jsOr (Deal.DealStage deal) (VStr "Unknown")) "won")
    as [won|e]; simpl; [|discriminate].
  apply forEachM_inv; [|exact H].
  intros s x s' _. apply analysisBody_balanced.
Qed.




End NameKeyed.

(** ** The Revenue Validator keyed by company identifier *)

Section IdentifierKeyed.
Context {host : Host}.

Lemma jsGt_zero v : Legacy.jsGt v (VNum (Fin 0%Q)) = numGt (ToNumber v) (Fin 0%Q).
Proof. destruct v; reflexivity. Qed.

Lemma numGt_zero_pos n :
  numGt n (Fin 0%Q) = true -> exists q, n = Fin q /\ (0 < q)%Q.
Proof.
  destruct n as [|q]; simpl; [discriminate|]. rewrite negb_true_iff. intros H.
  exists q. split; [reflexivity|]. apply Qnot_le_lt. intros Hle.
  apply Qle_bool_iff in Hle. congruence.
Qed.

Lemma isZero_pos q : (0 < q)%Q -> isZero q = false.
Proof.
  intros H. unfold isZero. destruct (Qeq_bool q 0) eqn:E; [|reflexivity].
  apply Qeq_bool_iff in E. rewrite E in H. now apply Qlt_irrefl in H.
Qed.

Lemma legacy_item_inv deals companies item :
  In item (Legacy.revenueValidation deals companies) ->
  Legacy.RevenueItem.variance item
  = Math_abs (numSub (ToNumber (Legacy.RevenueItem.declaredRevenue item))
                (ToNumber (Legacy.RevenueItem.calculatedRevenue item)))
  /\ Legacy.RevenueItem.accuracy item
     = Legacy.accuracyOf (Legacy.RevenueItem.declaredRevenue item)
         (Legacy.RevenueItem.variance item)
  /\ Legacy.jsGt (Legacy.RevenueItem.calculatedRevenue item) (VNum (Fin 0%Q)) = true.
Proof.
  unfold Legacy.revenueValidation. intros H. apply filter_In in H.
  destruct H as [H Hpos]. apply in_map_iff in H. destruct H as ([k a] & <- & _).
  repeat split. exact Hpos.
Qed.

(** C8, as amended. For every company the identifier-keyed Revenue
    Validator emits, the accuracy is
    [max(0, 100 - |declared - calculated| / declared * 100)] when the
    declared revenue is greater than zero, and 0 otherwise. *)
Theorem accuracy_scores_a_positive_declared_revenue
    (deals : list Deal.t) (companies : list Company.t) (item : Legacy.RevenueItem.t)
    (Hitem : In item (Legacy.revenueValidation deals companies)) :
  (Legacy.jsGt (Legacy.RevenueItem.declaredRevenue item) (VNum (Fin 0%Q)) = true ->
   Legacy.RevenueItem.accuracy item
   = claimedAccuracy (Legacy.RevenueItem.declaredRevenue item)
       (Legacy.RevenueItem.calculatedRevenue item))
  /\ (Legacy.jsGt (Legacy.RevenueItem.declaredRevenue item) (VNum (Fin 0%Q)) = false ->
      Legacy.RevenueItem.accuracy item = Fin 0%Q)
  /\ (forall d c,
        Legacy.RevenueItem.declaredRevenue item = VNum (Fin d) ->
        Legacy.RevenueItem.calculatedRevenue item = VNum (Fin c) ->
        (0 < d)%Q ->
        exists a, Legacy.RevenueItem.accuracy item = Fin a
                  /\ (a == Qmax 0 (100 - Qabs (d - c) / d * 100))%Q).
Proof.
  destruct (legacy_item_inv deals companies item Hitem) as (V & A & _).
  rewrite A, V. unfold Legacy.accuracyOf. split; [|split].
  - intros G. rewrite G. unfold claimedAccuracy.
    rewrite jsGt_zero in G. destruct (numGt_zero_pos _ G) as (q & -> & Hq).
    now rewrite (isZero_pos q Hq).
  - intros G. now rewrite G.
  - intros d c -> -> Hd.
    cbv [Legacy.jsGt ToNumber numGt numSub Math_abs numDiv numMul Math_max].
    replace (Qle_bool d 0) with false
      by (symmetry; destruct (Qle_bool d 0) eqn:E; [|reflexivity];
          apply Qle_bool_iff in E; exfalso; apply (Qlt_not_le _ _ Hd E)).
    cbv [negb]. rewrite (isZero_pos d Hd).
    destruct (Qle_bool 0 (100 - Qabs (d - c) / d * 100)) eqn:E.
    + eexists. split; [reflexivity|]. apply Qle_bool_iff in E.
      symmetry. now apply Q.max_r.
    + eexists. split; [reflexivity|]. symmetry. apply Q.max_l.
      apply Qlt_le_weak. apply Qnot_le_lt. intros Hle.
      apply Qle_bool_iff in Hle. congruence.
Qed.

End IdentifierKeyed.

(** C8, witness: a company declaring 100 with one linked deal of 50. *)
Lemma accuracy_scores_a_positive_declared_revenue_witness :
  exists a,
    Legacy.RevenueItem.accuracy
      (@Legacy.revenueItemOf DecimalHost.host
         ("10", Legacy.Analysis.make (VStr "Half Ltd") (VNum (Fin 100%Q))
                  (VNum (Fin 50%Q)) 1 1 0 [])) = Fin a
    /\ (a == Qmax 0 (100 - Qabs (100 - 50) / 100 * 100))%Q.
Proof.
  refine (proj2 (proj2
    (@accuracy_scores_a_positive_declared_revenue DecimalHost.host
       [indebtedDeal] [halfCompany]
       _ _)) 100%Q 50%Q _ _ _).
  - vm_compute. left. reflexivity.
  - reflexivity.
  - reflexivity.
  - reflexivity.
Defined.

(** C8, counterexample: a company declaring -100 with one linked deal of
    50 is emitted with a non-zero declared revenue and accuracy 0, where
    the formula of the specification gives 250. *)
Lemma accuracy_of_a_negative_declared_revenue :
  exists item,
    In item (@Legacy.revenueValidation DecimalHost.host [indebtedDeal] [indebtedCompany])
    /\ Legacy.RevenueItem.declaredRevenue item = VNum (Fin (-100)%Q)
    /\ Legacy.RevenueItem.calculatedRevenue item = VNum (Fin (0 + 50)%Q)
    /\ Legacy.RevenueItem.accuracy item = Fin 0%Q
    /\ @claimedAccuracy DecimalHost.host (Legacy.RevenueItem.declaredRevenue item)
         (Legacy.RevenueItem.calculatedRevenue item)
       = Fin (100 - Qabs (-100 - (0 + 50)) / -100 * 100)%Q
    /\ (100 - Qabs (-100 - (0 + 50)) / -100 * 100 == 250)%Q
    /\ Legacy.RevenueItem.accuracy item
       <> @claimedAccuracy DecimalHost.host (Legacy.RevenueItem.declaredRevenue item)
            (Legacy.RevenueItem.calculatedRevenue item).
Proof.
  eexists. split; [left; reflexivity|]. repeat split.
  discriminate.
Qed.

(** ** Exceptions that end a pass *)

Section Abort.
Context {host : Host}.

Lemma timeSeriesStep_kind closeDate brand revenue series e :
  Mapper.timeSeriesStep closeDate brand revenue series = Throw e -> e = RangeError.
Proof.
  unfold Mapper.timeSeriesStep. destruct (truthy closeDate); [|discriminate].
  destruct (newDate closeDate); simpl; [discriminate | now intros [= <-]].
Qed.

Lemma brandBody_kind deal st brand e :
  Mapper.brandBody deal st brand = Throw e -> e = RangeError.
Proof.
  unfold Mapper.brandBody. destruct (nonEmpty brand); [|discriminate].
  destruct (Mapper.timeSeriesStep _ _ _ _) eqn:E; simpl; [discriminate|].
  intros [= <-]. now apply timeSeriesStep_kind in E.
Qed.

Lemma brandDealBody_kind st deal e :
  Mapper.brandDealBody st deal = Throw e -> e = RangeError.
Proof.
  unfold Mapper.brandDealBody. apply forEachM_kind.
  intros s x e'. apply brandBody_kind.
Qed.

Lemma brandDealBody_invalid_date deal st :
  Mapper.brandsOf deal <> [] ->
  truthy (Deal.CloseDate deal) = true ->
  newDate (Deal.CloseDate deal) = None ->
  Mapper.brandDealBody st deal = Throw RangeError.
Proof.
  intros Hb Ht Hd. unfold Mapper.brandDealBody.
  destruct (Mapper.brandsOf deal) as [|b bs] eqn:B; [congruence|].
  assert (Hne : nonEmpty b = true).
  { apply (brandsOf_nonEmpty deal). rewrite B. now left. }
  simpl. unfold Mapper.brandBody. rewrite Hne.
  unfold Mapper.timeSeriesStep. rewrite Ht, Hd. reflexivity.
Qed.

(** C1, the defect. A deal that carries a brand and a close date which is
    not a valid date ends the pass with a [RangeError]: the month of the
    brand time series is read off [toISOString()], which throws on an
    invalid date, and nothing catches it. *)
Theorem invalid_close_date_aborts_the_pass
    (deals : list Deal.t) (companies : list Company.t) (searchTerm : string)
    (deal : Deal.t)
    (Hdeal : In deal deals)
    (Hbrand : Mapper.brandsOf deal <> [])
    (Htruthy : truthy (Deal.CloseDate deal) = true)
    (Hinvalid : newDate (Deal.CloseDate deal) = None) :
  Mapper.brandMapping deals = Throw RangeError
  /\ Mapper.reconcile deals companies searchTerm = Throw RangeError.
Proof.
  assert (L : Mapper.brandLoop deals = Throw RangeError).
  { unfold Mapper.brandLoop. apply forEachM_throws with (x := deal).
    - exact Hdeal.
    - intros s. now apply brandDealBody_invalid_date.
    - intros s y e. apply brandDealBody_kind. }
  assert (B : Mapper.brandMapping deals = Throw RangeError).
  { unfold Mapper.brandMapping. now rewrite L. }
  split; [exact B|]. unfold Mapper.reconcile. now rewrite B.
Qed.

End Abort.

(** C1, witness: one deal tagged "Acme" whose close date reads "TBD". *)
Lemma invalid_close_date_aborts_the_pass_witness :
  @Mapper.brandMapping DecimalHost.host [undatedDeal] = Throw RangeError
  /\ @Mapper.reconcile DecimalHost.host [undatedDeal] [acmeCorp] "" = Throw RangeError.
Proof.
  apply (@invalid_close_date_aborts_the_pass DecimalHost.host
           [undatedDeal] [acmeCorp] "" undatedDeal).
  - left. reflexivity.
  - discriminate.
  - reflexivity.
  - reflexivity.
Defined.

(** The same pass on a close date that is a date. *)
Example dated_deal_completes :
  exists pass,
    @Mapper.reconcile DecimalHost.host [datedDeal] [acmeCorp] "" = Ok pass
    /\ Mapper.brandTimeSeries (Mapper.br_state (Mapper.pass_brandMapping pass))
       = [("Acme", [("2025-05", Fin (0 + 5000)%Q)])].
Proof. eexists. split; reflexivity. Qed.

(** Other places where a cell of the wrong type ends a pass: a numeric
    stage in the name-keyed Revenue Validator, a numeric deal name under a
    non-empty search term, and, in the older variant, a numeric domain. *)
Example numeric_stage_aborts_the_validator :
  @Mapper.revenueValidation DecimalHost.host [numericStageDeal] = Throw TypeError.
Proof. reflexivity. Qed.

Example numeric_name_aborts_the_filter :
  @Mapper.filteredRelationships
    (@Mapper.combinedRelationships
       (@Mapper.directIdMapping DecimalHost.host [numericNameDeal] [acmeCorp])
       [])
    "zed"
  = Throw TypeError.
Proof. reflexivity. Qed.

Example numeric_domain_aborts_the_older_variant :
  @Legacy.domainMapping DecimalHost.host [numberedCompany] = Throw TypeError.
Proof. reflexivity. Qed.

(** In the older variant a Budget that is a text is appended to the total,
    which the component parses to 0. *)
Example text_budget_in_both_variants :
  @Legacy.totalDealValue DecimalHost.host [unpricedDeal; acmeDeal] = VStr "0tbc5000"
  /\ @Mapper.totalDealValue DecimalHost.host [unpricedDeal; acmeDeal]
     = Fin (0 + 0 + 5000)%Q.
Proof. split; reflexivity. Qed.

(** The worked example of the specification: one Mapping of confidence 100
    and amount 5000, flagged as won; 5000 for each of the two brands; a win
    rate of 100. *)
Example worked_example :
  exists pass m,
    @Mapper.reconcile DecimalHost.host [acmeDeal] [acmeCorp] "" = Ok pass
    /\ Mapper.pass_directIdMapping pass = [m]
    /\ Mapper.Mapping.confidence m = Fin 100%Q
    /\ Mapper.Mapping.amount m = Fin 5000%Q
    /\ Mapper.Mapping.isClosedWon m = VBool true
    /\ Mapper.brandRevenue (Mapper.br_state (Mapper.pass_brandMapping pass))
       = [("Acme", Fin (0 + 5000)%Q); ("Zed", Fin (0 + 5000)%Q)]
    /\ Mapper.Stats.totalRevenue (Mapper.pass_strategyStats pass) = Fin (0 + 5000)%Q
    /\ Mapper.Stats.winRate (Mapper.pass_strategyStats pass) = Fin (1 / 1 * 100)%Q.
Proof. do 2 eexists. repeat split. Qed.

(** ** The properties on the example tables *)

(** C3, witness: of the two companies under ["acme.com"], the shop has the
    only resolved deal. *)
Lemma parent_is_first_best_and_others_are_its_children_witness :
  exists parent before after,
    [acmeWww; acmeShop] = before ++ parent :: after
    /\ (forall c, In c [acmeWww; acmeShop] ->
          @outranks DecimalHost.host
            (@Mapper.directIdMapping DecimalHost.host [shopDeal] [acmeWww; acmeShop])
            c parent = false)
    /\ filter (ofDomain "acme.com")
         (@Mapper.domainMapping DecimalHost.host [acmeWww; acmeShop]
            (@Mapper.directIdMapping DecimalHost.host [shopDeal] [acmeWww; acmeShop]))
       = map (@Mapper.relationshipOf "acme.com"
                (@Mapper.withMetrics DecimalHost.host
                   (@Mapper.directIdMapping DecimalHost.host [shopDeal] [acmeWww; acmeShop])
                   parent))
           (before ++ after).
Proof.
  destruct (@parent_is_first_best_and_others_are_its_children DecimalHost.host
              [acmeWww; acmeShop]
              (@Mapper.directIdMapping DecimalHost.host [shopDeal] [acmeWww; acmeShop])
              "acme.com" [acmeWww; acmeShop])
    as (parent & before & after & _ & E & Hbest & _ & _ & Hrel).
  - left. reflexivity.
  - simpl. lia.
  - exists parent, before, after. split; [exact E|]. split; [exact Hbest|].
    apply Hrel. reflexivity.
Defined.

(** C3, counterexample: two rows with the same identifier under one root
    domain form a group of two; the first is the parent and the other
    member appears in no relationship. *)
Lemma member_with_the_parent_identifier_is_no_child :
  Mapper.domainGroups [acmeWww; acmeTwin] = [("acme.com", [acmeWww; acmeTwin])]
  /\ @Mapper.parentOf DecimalHost.host [] [acmeWww; acmeTwin]
     = Some (@Mapper.withMetrics DecimalHost.host [] acmeWww)
  /\ acmeTwin <> acmeWww
  /\ @Mapper.domainMapping DecimalHost.host [acmeWww; acmeTwin] [] = [].
Proof. repeat split. discriminate. Qed.

(** The example of the specification on these two companies: one
    relationship, whose parent is the company with the resolved deal. *)
Example two_companies_one_relationship :
  @Mapper.domainMapping DecimalHost.host [acmeWww; acmeShop]
    (@Mapper.directIdMapping DecimalHost.host [shopDeal] [acmeWww; acmeShop])
  = [Mapper.DomainRelationship.make (VNum (Fin 21%Q)) (VStr "Acme Shop")
       (VNum (Fin 20%Q)) (VStr "Acme") (Fin 75%Q) "domain" "acme.com" 1 (Fin 100%Q)]
  /\ @Mapper.domainMapping DecimalHost.host [acmeWww; acmeShop] []
     = [Mapper.DomainRelationship.make (VNum (Fin 20%Q)) (VStr "Acme")
          (VNum (Fin 21%Q)) (VStr "Acme Shop") (Fin 75%Q) "domain" "acme.com" 0
          (Fin 900%Q)].
Proof. split; reflexivity. Qed.




(** * Further properties of the component *)

(** ** Grouping by root domain *)

Lemma groupBody_lookup groups c k :
  lookup k (Mapper.groupBody groups c)
  = if filedAt k c then Some (getOr [] (lookup k groups) ++ [c]) else lookup k groups.
Proof.
  unfold Mapper.groupBody, filedAt, keyOf.
  destruct (Mapper.usableDomain (Company.CompanyDomainName c)) as [d|]; simpl;
    [|reflexivity].
  destruct (String.eqb (Mapper.rootDomainOf d) k) eqn:E.
  - apply String.eqb_eq in E. subst k. apply lookup_assign_eq.
  - apply lookup_assign_neq. intros H. rewrite H, String.eqb_refl in E. discriminate.
Qed.

Lemma domainGroups_fold_lookup l groups k :
  lookup k (fold_left Mapper.groupBody l groups)
  = match filter (filedAt k) l with
    | [] => lookup k groups
    | g => Some (getOr [] (lookup k groups) ++ g)
    end.
Proof.
  revert groups; induction l as [|c l IH]; intros groups; simpl; [reflexivity|].
  rewrite IH, groupBody_lookup. destruct (filedAt k c); simpl.
  - destruct (filter (filedAt k) l); [reflexivity|].
    now rewrite <- app_assoc.
  - reflexivity.
Qed.

Lemma domainGroups_is_a_grouping_aux (companies : list Company.t) :
  NoDup (map fst (Mapper.domainGroups companies))
  /\ Forall (fun entry => snd entry = filter (filedAt (fst entry)) companies
                          /\ snd entry <> [])
       (Mapper.domainGroups companies).
Proof.
  assert (L : forall k', lookup k' (Mapper.domainGroups companies)
                         = match filter (filedAt k') companies with
                           | [] => None
                           | g => Some g
                           end).
  { intros k'. unfold Mapper.domainGroups. rewrite domainGroups_fold_lookup. reflexivity. }
  destruct (domainGroups_ok companies) as [ND _].
  split; [exact ND|].
  apply Forall_forall. intros [k' g] Hin. simpl.
  pose proof (In_lookup k' g _ ND Hin) as H. rewrite L in H.
  destruct (filter (filedAt k') companies) as [|c g'] eqn:F; [discriminate|].
  injection H as <-. split; [reflexivity | discriminate].
Qed.


(** ** Relationships are between two companies of one group *)

Section WellFormedRelationships.
Context {host : Host}.

Lemma parentOf_member mappings group parent :
  Mapper.parentOf mappings group = Some parent ->
  exists p, In p group /\ parent = Mapper.withMetrics mappings p.
Proof.
  intros H. destruct group as [|first rest]; [discriminate|].
  destruct (parentOf_firstBest mappings (first :: rest))
    as (p & Hp & before & after & E & _); [discriminate|].
  rewrite Hp in H. injection H as <-. exists p. split; [|reflexivity].
  rewrite E. apply in_or_app. right. now left.
Qed.

(** X2. Every DomainRelationship of the output links two companies of the
    table that are filed under the relationship's domain, in a group of at
    least two; the child's identifier is not the parent's, and the deal
    count and revenue it carries are those of the parent. *)
Theorem relationships_link_two_members_of_a_group
    (companies : list Company.t) (mappings : list Mapper.Mapping.t)
    (r : Mapper.DomainRelationship.t)
    (Hr : In r (Mapper.domainMapping companies mappings)) :
  exists group parent child,
    lookup (Mapper.DomainRelationship.domain r) (Mapper.domainGroups companies) = Some group
    /\ 2 <= List.length group
    /\ In parent group /\ In child group
    /\ In parent companies /\ In child companies
    /\ filedAt (Mapper.DomainRelationship.domain r) parent = true
    /\ filedAt (Mapper.DomainRelationship.domain r) child = true
    /\ r = Mapper.relationshipOf (Mapper.DomainRelationship.domain r)
             (Mapper.withMetrics mappings parent) child
    /\ strictEq (Mapper.DomainRelationship.childId r)
         (Mapper.DomainRelationship.parentId r) = false
    /\ Mapper.DomainRelationship.parentDealCount r = resolvedDeals mappings parent
    /\ Mapper.DomainRelationship.parentRevenue r = declaredRevenue parent.
Proof.
  rewrite domainMapping_flat_map in Hr. apply in_flat_map in Hr.
  destruct Hr as ([domain group] & Hentry & Hr).
  destruct (domainGroups_is_a_grouping_aux companies) as [ND Hall].
  pose proof (In_lookup domain group _ ND Hentry) as L.
  rewrite Forall_forall in Hall. destruct (Hall _ Hentry) as [Hg _]. simpl in Hg.
  unfold groupRelationships, Mapper.entryBody in Hr.
  destruct (Nat.ltb 1 (List.length group)) eqn:Hsize; [|destruct Hr].
  apply Nat.ltb_lt in Hsize.
  destruct (Mapper.parentOf mappings group) as [parent|] eqn:P; [|destruct Hr].
  destruct (parentOf_member mappings group parent P) as (p & Hp & ->).
  rewrite childBody_fold in Hr. simpl in Hr. apply in_map_iff in Hr.
  destruct Hr as (c & <- & Hc). apply filter_In in Hc. destruct Hc as [Hc Hchild].
  assert (M : forall x, In x group -> In x companies /\ filedAt domain x = true).
  { intros x Hx. rewrite Hg in Hx. apply filter_In in Hx. exact Hx. }
  exists group, p, c. simpl.
  split; [exact L|]. split; [lia|]. split; [exact Hp|]. split; [exact Hc|].
  split; [apply M, Hp|]. split; [apply M, Hc|]. split; [apply M, Hp|].
  split; [apply M, Hc|]. split; [reflexivity|].
  split; [unfold Mapper.isChildOf in Hchild; simpl in Hchild;
          now apply negb_true_iff in Hchild|].
  split; [apply withMetrics_dealCount | reflexivity].
Qed.

End WellFormedRelationships.

(** ** The combined sequence and the rows of the ID table *)

Lemma flat_map_single {A B} (f : A -> B) (l : list A) :
  flat_map (fun x => [f x]) l = map f l.
Proof. induction l as [|x l IH]; simpl; [reflexivity | now rewrite IH]. Qed.

Lemma combinedRelationships_app direct domains :
  Mapper.combinedRelationships direct domains
  = map (fun m => Mapper.Combined.OfMapping m "Enhanced ID" "deal-company") direct
    ++ map (fun r => Mapper.Combined.OfDomain r "Domain" "parent-child") domains.
Proof.
  unfold Mapper.combinedRelationships.
  rewrite (fold_left_emit _ (fun r => [Mapper.Combined.OfDomain r "Domain" "parent-child"]))
    by reflexivity.
  rewrite (fold_left_emit _ (fun m => [Mapper.Combined.OfMapping m "Enhanced ID" "deal-company"]))
    by reflexivity.
  simpl. now rewrite !flat_map_single.
Qed.

(** X3. The combined sequence is the Direct-ID mappings, tagged "Enhanced
    ID", followed by the domain relationships, tagged "Domain", each in its
    own order. Selecting the "Enhanced ID" entries gives the mappings back,
    so without a search term the ID table shows the first 50 mappings; it
    never has more than 50 rows, and rows are reported as left out exactly
    when there are more than 50 mappings. *)
Theorem combined_sequence_and_id_table_rows
    (direct : list Mapper.Mapping.t) (domains : list Mapper.DomainRelationship.t)
    (shown : list Mapper.Combined.t) :
  Mapper.combinedRelationships direct domains
  = map (fun m => Mapper.Combined.OfMapping m "Enhanced ID" "deal-company") direct
    ++ map (fun r => Mapper.Combined.OfDomain r "Domain" "parent-child") domains
  /\ List.length (Mapper.combinedRelationships direct domains)
     = List.length direct + List.length domains
  /\ filter Mapper.isEnhancedId (Mapper.combinedRelationships direct domains)
     = map (fun m => Mapper.Combined.OfMapping m "Enhanced ID" "deal-company") direct
  /\ Mapper.idMappingRows (Mapper.combinedRelationships direct domains)
     = map (fun m => Mapper.Combined.OfMapping m "Enhanced ID" "deal-company")
         (firstn 50 direct)
  /\ Mapper.idMappingRowsLeftOut (Mapper.combinedRelationships direct domains)
     = Nat.ltb 50 (List.length direct)
  /\ List.length (Mapper.idMappingRows shown) <= 50.
Proof.
  assert (F : filter Mapper.isEnhancedId (Mapper.combinedRelationships direct domains)
              = map (fun m => Mapper.Combined.OfMapping m "Enhanced ID" "deal-company")
                  direct).
  { rewrite combinedRelationships_app, filter_app.
    rewrite filter_all, filter_none; [now rewrite app_nil_r | |];
      intros x Hx; apply in_map_iff in Hx; destruct Hx as (y & <- & _); reflexivity. }
  split; [apply combinedRelationships_app|]. split; [|split; [exact F|split; [|split]]].
  - rewrite combinedRelationships_app, length_app, !length_map. reflexivity.
  - unfold Mapper.idMappingRows. rewrite F. apply firstn_map.
  - unfold Mapper.idMappingRowsLeftOut. rewrite F, length_map. reflexivity.
  - unfold Mapper.idMappingRows. apply firstn_le_length.
Qed.

(** ** Histograms *)




Section Statistics.
Context {host : Host}.


Lemma ofNat_pos n : 0 < n -> (0 < inject_Z (Z.of_nat n))%Q.
Proof.
  intros H. change 0%Q with (inject_Z 0). rewrite <- Zlt_Qlt. lia.
Qed.

Lemma percentOf_isPercent count total :
  count <= total -> isPercent (Mapper.percentOf count total).
Proof.
  intros Hle. unfold Mapper.percentOf, isPercent.
  destruct (Nat.ltb 0 total) eqn:T.
  - apply Nat.ltb_lt in T. pose proof (ofNat_pos total T) as Ht.
    unfold ofNat, numDiv. rewrite (isZero_pos _ Ht). simpl.
    eexists. split; [reflexivity|].
    assert (Hc : (0 <= inject_Z (Z.of_nat count))%Q).
    { change 0%Q with (inject_Z 0). rewrite <- Zle_Qle. lia. }
    assert (Hct : (inject_Z (Z.of_nat count) <= inject_Z (Z.of_nat total))%Q).
    { rewrite <- Zle_Qle. lia. }
    assert (L : (0 <= inject_Z (Z.of_nat count) / inject_Z (Z.of_nat total))%Q).
    { apply Qle_shift_div_l; [exact Ht|]. now rewrite Qmult_0_l. }
    assert (U : (inject_Z (Z.of_nat count) / inject_Z (Z.of_nat total) <= 1)%Q).
    { apply Qle_shift_div_r; [exact Ht|]. now rewrite Qmult_1_l. }
    split; lra.
  - exists 0%Q. split; [reflexivity|]. split; lra.
Qed.




End Statistics.

(** ** Sorting *)

Lemma insertSorted_perm {A} (before : A -> A -> bool) (x : A) (l : list A) :
  Permutation (insertSorted before x l) (x :: l).
Proof.
  induction l as [|y l IH]; simpl; [reflexivity|].
  destruct (before y x); [|reflexivity].
  rewrite IH. apply perm_swap.
Qed.

Lemma sortStable_perm {A} (before : A -> A -> bool) (l : list A) :
  Permutation (sortStable before l) l.
Proof.
  induction l as [|x l IH]; simpl; [reflexivity|].
  rewrite insertSorted_perm. now constructor.
Qed.

Section SortedBy.
Context {A : Type} (before : A -> A -> bool) (P : A -> Prop).
Hypothesis asym : forall a b, P a -> P b -> before a b = true -> before b a = false.
Hypothesis negtrans :
  forall a b c, P a -> P b -> P c ->
                before a b = false -> before b c = false -> before a c = false.

Lemma insertSorted_sorted (x : A) (l : list A) :
  P x -> Forall P l ->
  StronglySorted (fun a b => before b a = false) l ->
  StronglySorted (fun a b => before b a = false) (insertSorted before x l).
Proof using asym negtrans.
  intros Hx. induction l as [|y l IH]; intros HP HS; simpl.
  - constructor; constructor.
  - inversion HP as [|? ? Hy HPl]; subst.
    inversion HS as [|? ? HSl Hall]; subst.
    destruct (before y x) eqn:E.
    + constructor; [now apply IH|].
      apply (Permutation_Forall (Permutation_sym (insertSorted_perm before x l))).
      constructor; [now apply asym | exact Hall].
    + constructor; [exact HS|]. constructor; [exact E|].
      rewrite Forall_forall in Hall, HPl |- *. intros z Hz.
      apply (negtrans z y x); auto.
Qed.

Lemma sortStable_sorted (l : list A) :
  Forall P l -> StronglySorted (fun a b => before b a = false) (sortStable before l).
Proof using asym negtrans.
  induction l as [|x l IH]; intros HP; simpl; [constructor|].
  inversion HP; subst. apply insertSorted_sorted; auto.
  apply (Permutation_Forall (Permutation_sym (sortStable_perm before l))). assumption.
Qed.

End SortedBy.

Lemma numGt_asym a b : numGt a b = true -> numGt b a = false.
Proof.
  destruct a as [|x], b as [|y]; simpl; try discriminate; try reflexivity.
  rewrite negb_true_iff, negb_false_iff. intros H.
  apply Qle_bool_iff. apply Qlt_le_weak. apply Qnot_le_lt. intros Hle.
  apply Qle_bool_iff in Hle. congruence.
Qed.

Lemma numGt_negtrans x y z :
  numGt (Fin x) (Fin y) = false -> numGt (Fin y) (Fin z) = false ->
  numGt (Fin x) (Fin z) = false.
Proof.
  simpl. rewrite !negb_false_iff, !Qle_bool_iff. intros H1 H2.
  now apply Qle_trans with y.
Qed.

(** ** The dictionaries of the brand loop *)




Lemma lookup_assign {V} k (v : V) o k' :
  lookup k' (assign k v o) = if String.eqb k k' then Some v else lookup k' o.
Proof.
  destruct (String.eqb k k') eqn:E.
  - apply String.eqb_eq in E. subst k'. apply lookup_assign_eq.
  - apply lookup_assign_neq. intros H. rewrite H, String.eqb_refl in E. discriminate.
Qed.



Section BrandDictionaries.
Context {host : Host}.










End BrandDictionaries.

(** ** Deal counts of brands *)

Section BrandCounts.
Context {host : Host}.







End BrandCounts.

(** ** When a pass returns *)

Section Returns.
Context {host : Host}.














End Returns.

(** ** The analyses of the name-keyed validator *)

Section NameKeyedTotals.
Context {host : Host}.

Lemma sumQ_snoc (f : Mapper.DealLine -> Q) (l : list Mapper.DealLine) (x : Mapper.DealLine) :
  (sumQ (map f (l ++ [x])) == sumQ (map f l) + f x)%Q.
Proof.
  induction l as [|y l IH]; simpl; [ring|]. rewrite IH. ring.
Qed.

Lemma analysisBody_entry deal b p stage won analysis name analysis' :
  Mapper.analysisBody deal b p stage won analysis name = Ok analysis' ->
  let a0 := getOr (Mapper.emptyAnalysis name) (lookup name analysis) in
  exists a2,
    analysis' = assign name a2 analysis
    /\ Mapper.Analysis.companyName a2 = Mapper.Analysis.companyName a0
    /\ Mapper.Analysis.totalMediaBudget a2
       = numAdd (Mapper.Analysis.totalMediaBudget a0) b
    /\ Mapper.Analysis.totalPOAmount a2 = numAdd (Mapper.Analysis.totalPOAmount a0) p
    /\ Mapper.Analysis.dealCount a2 = Mapper.Analysis.dealCount a0 + 1
    /\ Mapper.Analysis.deals a2
       = Mapper.Analysis.deals a0
         ++ [Mapper.mkDealLine (jsOr (Deal.DealName deal) (VStr "Unnamed Deal"))
               stage b p (Deal.CloseDate deal)].
Proof.
  unfold Mapper.analysisBody. destruct won; simpl.
  - intros [= <-]. eexists. split; [reflexivity|]. simpl. repeat split.
  - destruct (Mapper.stageHas stage "lost") as [[]|e]; simpl; [| |discriminate];
      intros [= <-]; (eexists; split; [reflexivity|]); simpl; repeat split.
Qed.

Lemma entry_ok analysis name :
  analysisDictOk analysis ->
  analysisOk name (getOr (Mapper.emptyAnalysis name) (lookup name analysis)).
Proof.
  intros [_ H]. destruct (lookup name analysis) as [a|] eqn:L; simpl.
  - apply lookup_In in L. now destruct (H name a L).
  - split; [reflexivity|]. split; [reflexivity|].
    exists 0%Q, 0%Q. simpl. repeat split; reflexivity.
Qed.

Lemma analysisBody_ok deal x y stage won analysis name analysis' :
  analysisDictOk analysis ->
  Mapper.analysisBody deal (Fin x) (Fin y) stage won analysis name = Ok analysis' ->
  analysisDictOk analysis'.
Proof.
  intros Hok Hrun. pose proof (entry_ok analysis name Hok) as H0.
  destruct (analysisBody_entry _ _ _ _ _ _ _ _ Hrun) as (a2 & -> & N & B & P & C & L).
  cbv zeta in N, B, P, C, L.
  set (a0 := getOr (Mapper.emptyAnalysis name) (lookup name analysis)) in *.
  destruct Hok as [ND Hall]. split; [now apply assign_NoDup|].
  intros k a Hin. apply In_assign in Hin. destruct Hin as [[-> ->]|Hin]; [|now apply Hall].
  destruct H0 as (N0 & C0 & b0 & p0 & B0 & Eb & P0 & Ep).
  split; [|lia]. split; [congruence|]. split.
  - rewrite C, L, C0, length_app. reflexivity.
  - exists (b0 + x)%Q, (p0 + y)%Q. rewrite B, P, B0, P0, L. simpl.
    split; [reflexivity|]. split; [rewrite sumQ_snoc, <- Eb; simpl; ring|].
    split; [reflexivity|]. rewrite sumQ_snoc, <- Ep. simpl. ring.
Qed.

Lemma numOr0_value n : exists x, numOr0 n = Fin x.
Proof. destruct n as [|q]; simpl; [now eexists|]. destruct (isZero q); now eexists. Qed.

Lemma analysisDealBody_ok analysis deal analysis' :
  analysisDictOk analysis ->
  Mapper.analysisDealBody analysis deal = Ok analysis' ->
  analysisDictOk analysis'.
Proof.
  intros H. unfold Mapper.analysisDealBody.
  destruct (if strictEq (Deal.IsClosedWon deal) (VBool true) then Ok true
            else Mapper.stageHas (jsOr (Deal.DealStage deal) (VStr "Unknown")) "won")
    as [won|e]; simpl; [|discriminate].
  destruct (numOr0_value (parseFloat (Deal.Budget deal))) as (x & ->).
  destruct (numOr0_value (parseFloat (Deal.Amount deal))) as (y & ->).
  apply forEachM_inv; [|exact H].
  intros s n s' _. apply analysisBody_ok.
Qed.

Lemma analysisLoop_ok deals analysis :
  forEachM Mapper.analysisDealBody deals [] = Ok analysis -> analysisDictOk analysis.
Proof.
  apply forEachM_inv.
  - intros s x s' _. apply analysisDealBody_ok.
  - split; [constructor | intros ? ? []].
Qed.

Lemma analysisLoop_balanced deals analysis :
  forEachM Mapper.analysisDealBody deals [] = Ok analysis -> allBalanced analysis.
Proof.
  apply forEachM_inv; [|intros ? ? []].
  intros s x s' _. apply analysisDealBody_balanced.
Qed.

Lemma revenueItemOf_ok k a :
  analysisOk k a -> 1 <= Mapper.Analysis.dealCount a -> balancedAnalysis a ->
  Mapper.hasRevenue (Mapper.revenueItemOf a) = true ->
  itemOk (Mapper.revenueItemOf a).
Proof.
  intros (N & C & b & p & B & Eb & P & Ep) Hn Hbal Hrev.
  unfold itemOk, Mapper.revenueItemOf, Mapper.hasRevenue in *.
  cbv zeta in *.
  cbn [Mapper.RevenueItem.dealCount Mapper.RevenueItem.deals Mapper.RevenueItem.winRate
       Mapper.RevenueItem.totalMediaBudget Mapper.RevenueItem.totalPOAmount
       Mapper.RevenueItem.avgMediaBudget Mapper.RevenueItem.avgPOAmount] in *.
  assert (T : Nat.ltb 0 (Mapper.Analysis.dealCount a) = true) by now apply Nat.ltb_lt.
  rewrite T. pose proof (ofNat_pos _ Hn) as Hp.
  split; [exact C|]. split; [exact Hn|]. split.
  - assert (W : Mapper.Analysis.wonDeals a <= Mapper.Analysis.dealCount a)
      by (unfold balancedAnalysis in Hbal; lia).
    pose proof (percentOf_isPercent _ _ W) as Q. unfold Mapper.percentOf in Q.
    now rewrite T in Q.
  - rewrite B, P in *. unfold ofNat, numDiv. rewrite (isZero_pos _ Hp).
    exists b, p. do 2 eexists.
    split; [reflexivity|]. split; [exact Eb|]. split; [reflexivity|].
    split; [exact Ep|]. split.
    + apply orb_true_iff in Hrev.
      destruct Hrev as [H|H]; apply numGt_zero_pos in H;
        destruct H as (q & [= <-] & Hq); [now left | now right].
    + assert (NZ : ~ (inject_Z (Z.of_nat (Mapper.Analysis.dealCount a)) == 0)%Q).
      { intros Hz. rewrite Hz in Hp. now apply Qlt_irrefl in Hp. }
      split; [reflexivity|]. split; [now field|]. split; [reflexivity | now field].
Qed.


Lemma analysisBody_lines line_name b p stage won deal analysis name analysis' n :
  line_name = jsOr (Deal.DealName deal) (VStr "Unnamed Deal") ->
  Mapper.analysisBody deal b p stage won analysis name = Ok analysis' ->
  Mapper.Analysis.deals (getOr (Mapper.emptyAnalysis n) (lookup n analysis'))
  = Mapper.Analysis.deals (getOr (Mapper.emptyAnalysis n) (lookup n analysis))
    ++ (if String.eqb n name
        then [Mapper.mkDealLine line_name stage b p (Deal.CloseDate deal)]
        else []).
Proof.
  intros -> Hrun.
  destruct (analysisBody_entry _ _ _ _ _ _ _ _ Hrun) as (a2 & -> & _ & _ & _ & _ & L).
  cbv zeta in L. rewrite lookup_assign.
  destruct (String.eqb name n) eqn:E.
  - apply String.eqb_eq in E. subst n. rewrite String.eqb_refl. simpl. exact L.
  - rewrite String.eqb_sym, E. now rewrite app_nil_r.
Qed.

Lemma names_fold_lines deal b p stage won names n :
  forall analysis analysis',
    forEachM (Mapper.analysisBody deal b p stage won) names analysis = Ok analysis' ->
    Mapper.Analysis.deals (getOr (Mapper.emptyAnalysis n) (lookup n analysis'))
    = Mapper.Analysis.deals (getOr (Mapper.emptyAnalysis n) (lookup n analysis))
      ++ map (fun _ => Mapper.mkDealLine (jsOr (Deal.DealName deal) (VStr "Unnamed Deal"))
                         stage b p (Deal.CloseDate deal))
           (filter (String.eqb n) names).
Proof.
  induction names as [|name names IH]; intros analysis analysis'; simpl.
  - intros [= <-]. now rewrite app_nil_r.
  - destruct (Mapper.analysisBody deal b p stage won analysis name) as [s1|e] eqn:E;
      simpl; [|discriminate].
    intros Hrest. rewrite (IH s1 analysis' Hrest).
    rewrite (analysisBody_lines _ b p stage won deal analysis name s1 n eq_refl E).
    destruct (String.eqb n name); simpl; now rewrite <- app_assoc.
Qed.

Lemma analysisDealBody_lines analysis deal analysis' n :
  Mapper.analysisDealBody analysis deal = Ok analysis' ->
  Mapper.Analysis.deals (getOr (Mapper.emptyAnalysis n) (lookup n analysis'))
  = Mapper.Analysis.deals (getOr (Mapper.emptyAnalysis n) (lookup n analysis))
    ++ linesFor n [deal].
Proof.
  unfold Mapper.analysisDealBody, linesFor, lineOf.
  destruct (if strictEq (Deal.IsClosedWon deal) (VBool true) then Ok true
            else Mapper.stageHas (jsOr (Deal.DealStage deal) (VStr "Unknown")) "won")
    as [won|e]; simpl; [|discriminate].
  intros Hrun. rewrite app_nil_r. now apply names_fold_lines with (won := won).
Qed.

Lemma linesFor_app n l1 l2 : linesFor n (l1 ++ l2) = linesFor n l1 ++ linesFor n l2.
Proof. unfold linesFor. apply flat_map_app. Qed.

Lemma analysisLoop_lines deals n :
  forall analysis analysis',
    forEachM Mapper.analysisDealBody deals analysis = Ok analysis' ->
    Mapper.Analysis.deals (getOr (Mapper.emptyAnalysis n) (lookup n analysis'))
    = Mapper.Analysis.deals (getOr (Mapper.emptyAnalysis n) (lookup n analysis))
      ++ linesFor n deals.
Proof.
  induction deals as [|d deals IH]; intros analysis analysis'; simpl.
  - intros [= <-]. now rewrite app_nil_r.
  - destruct (Mapper.analysisDealBody analysis d) as [s1|e] eqn:E; simpl; [|discriminate].
    intros Hrest. rewrite (IH s1 analysis' Hrest), (analysisDealBody_lines _ _ _ n E).
    rewrite <- app_assoc. f_equal. symmetry. apply (linesFor_app n [d] deals).
Qed.

(** X13. Whenever the name-keyed Revenue Validator returns, the lines of
    an emitted company are the lines of the deals that name it, in the
    order of the deals and once for each time a deal names it; so its deal
    count is the number of such mentions. A company that no deal names is
    not emitted. *)
Theorem emitted_lines_are_the_mentions_in_order
    (deals : list Deal.t) (items : list Mapper.RevenueItem.t)
    (item : Mapper.RevenueItem.t)
    (Hrun : Mapper.revenueValidation deals = Ok items)
    (Hitem : In item items) :
  Mapper.RevenueItem.deals item = linesFor (Mapper.RevenueItem.companyName item) deals
  /\ Mapper.RevenueItem.dealCount item
     = List.length (linesFor (Mapper.RevenueItem.companyName item) deals)
  /\ exists deal,
       In deal deals
       /\ In (Mapper.RevenueItem.companyName item)
            (splitTags (Deal.AssociatedCompany deal)).
Proof.
  unfold Mapper.revenueValidation in Hrun.
  destruct (forEachM Mapper.analysisDealBody deals []) as [analysis|e] eqn:E;
    simpl in Hrun; [|discriminate].
  injection Hrun as <-.
  pose proof (analysisLoop_ok deals analysis E) as [ND Hall].
  apply filter_In in Hitem. destruct Hitem as [Hin _]. apply in_map_iff in Hin.
  destruct Hin as ([k a] & <- & Hin). simpl.
  destruct (Hall k a Hin) as [(N & C & _) Hn].
  pose proof (analysisLoop_lines deals k [] analysis E) as L.
  rewrite (In_lookup k a analysis ND Hin) in L. simpl in L.
  rewrite N. split; [exact L|]. split; [now rewrite C, L|].
  rewrite C, L in Hn. unfold linesFor in Hn.
  destruct (flat_map _ deals) as [|l ls] eqn:F; [simpl in Hn; lia|].
  assert (Hl : In l (flat_map
                      (fun d => map (fun _ => lineOf d)
                                  (filter (String.eqb k)
                                     (splitTags (Deal.AssociatedCompany d)))) deals))
    by (rewrite F; now left).
  apply in_flat_map in Hl. destruct Hl as (d & Hd & Hl).
  apply in_map_iff in Hl. destruct Hl as (x & _ & Hx).
  apply filter_In in Hx. destruct Hx as [Hx Ex]. apply String.eqb_eq in Ex. subst x.
  exists d. split; [exact Hd | exact Hx].
Qed.

End NameKeyedTotals.

(** ** The summary of the Direct-ID strategy *)

Section MappedSummary.
Context {host : Host}.






End MappedSummary.

(** ** The win-rate chart *)

Lemma string_length_append (a b : string) :
  String.length (a ++ b) = String.length a + String.length b.
Proof. induction a as [|c a IH]; simpl; [reflexivity | now rewrite IH]. Qed.

Lemma sliceTo_length n s : String.length (sliceTo n s) = Nat.min n (String.length s).
Proof.
  revert s; induction n as [|n IH]; intros [|c s]; simpl; try reflexivity.
  now rewrite IH.
Qed.

Lemma sliceTo_all n s : String.length s <= n -> sliceTo n s = s.
Proof.
  revert s; induction n as [|n IH]; intros [|c s]; simpl; try reflexivity; try lia.
  intros H. rewrite IH; [reflexivity | lia].
Qed.

Lemma shortName_length name : String.length (Mapper.shortName name) <= 23.
Proof.
  unfold Mapper.shortName. rewrite string_length_append, sliceTo_length.
  destruct (Nat.ltb 20 (String.length name)) eqn:E.
  - change (String.length "...") with 3. lia.
  - change (String.length "") with 0. lia.
Qed.

Lemma shortName_short name : String.length name <= 20 -> Mapper.shortName name = name.
Proof.
  intros H. unfold Mapper.shortName. rewrite (sliceTo_all 20 name H).
  replace (Nat.ltb 20 (String.length name)) with false
    by (symmetry; apply Nat.ltb_ge; exact H).
  clear H. induction name as [|c name IH]; simpl; [reflexivity | now rewrite IH].
Qed.

Lemma StronglySorted_app_inv {A} (R : A -> A -> Prop) (l1 l2 : list A) :
  StronglySorted R (l1 ++ l2) ->
  StronglySorted R l1 /\ (forall x y, In x l1 -> In y l2 -> R x y).
Proof.
  induction l1 as [|a l1 IH]; simpl; intros H.
  - split; [constructor | intros ? ? []].
  - inversion H as [|? ? Hs Hall]; subst. destruct (IH Hs) as [S1 C].
    rewrite Forall_forall in Hall. split.
    + constructor; [exact S1|]. apply Forall_forall. intros x Hx.
      apply Hall. apply in_or_app. now left.
    + intros x y [<-|Hx] Hy; [|now apply C]. apply Hall. apply in_or_app. now right.
Qed.

Section WinRateChart.
Context {host : Host}.

Lemma itemOk_winRate item : itemOk item -> exists q, Mapper.RevenueItem.winRate item = Fin q.
Proof. intros (_ & _ & (q & E & _) & _). now exists q. Qed.

Lemma revenueValidation_items_ok deals items :
  Mapper.revenueValidation deals = Ok items ->
  Forall itemOk items
  /\ Forall (fun item => Mapper.RevenueItem.wonDeals item
                         <= Mapper.RevenueItem.dealCount item) items.
Proof.
  unfold Mapper.revenueValidation.
  destruct (forEachM Mapper.analysisDealBody deals []) as [analysis|e] eqn:E;
    simpl; [|discriminate].
  intros [= <-].
  pose proof (analysisLoop_ok deals analysis E) as [ND Hall].
  pose proof (analysisLoop_balanced deals analysis E) as Hbal.
  split; apply Forall_forall; intros item Hin; apply filter_In in Hin;
    destruct Hin as [Hin Hrev]; apply in_map_iff in Hin;
    destruct Hin as ([k a] & <- & Hin); simpl in *.
  - destruct (Hall k a Hin) as [Hok Hn].
    apply (revenueItemOf_ok k a Hok Hn (Hbal k a Hin) Hrev).
  - specialize (Hbal k a Hin). unfold balancedAnalysis in Hbal. lia.
Qed.

(** X15. The win-rate chart of a pass shows, of the companies with at
    least three deals, ten with the highest win rates (all of them when
    there are fewer), in descending order of win rate: no company left out
    has a higher rate than one shown. A bar carries the win rate, the deal
    count and the won count of its company, a rate between 0 and 100, no
    more won deals than deals, and a name of at most 23 characters, which is
    the company name when that has at most 20. *)
Theorem win_rate_chart_shows_the_ten_best
    (deals : list Deal.t) (items : list Mapper.RevenueItem.t)
    (Hrun : Mapper.revenueValidation deals = Ok items) :
  (exists charted rest,
     Permutation (filter chartable items) (charted ++ rest)
     /\ Mapper.winRateBars items = map barOf charted
     /\ List.length charted = Nat.min 10 (List.length (filter chartable items))
     /\ StronglySorted
          (fun a b => numGt (Mapper.RevenueItem.winRate b) (Mapper.RevenueItem.winRate a)
                      = false) charted
     /\ (forall c r, In c charted -> In r rest ->
           numGt (Mapper.RevenueItem.winRate r) (Mapper.RevenueItem.winRate c) = false))
  /\ Forall (fun bar => 3 <= Mapper.bar_deals bar
                        /\ Mapper.bar_wonDeals bar <= Mapper.bar_deals bar
                        /\ isPercent (Mapper.bar_winRate bar)
                        /\ String.length (Mapper.bar_name bar) <= 23)
       (Mapper.winRateBars items)
  /\ (forall item, String.length (Mapper.RevenueItem.companyName item) <= 20 ->
        Mapper.bar_name (barOf item) = Mapper.RevenueItem.companyName item).
Proof.
  destruct (revenueValidation_items_ok deals items Hrun) as [Hok Hwon].
  set (before := fun a b : Mapper.RevenueItem.t =>
                   numGt (Mapper.RevenueItem.winRate a) (Mapper.RevenueItem.winRate b)).
  set (sorted := sortStable before (filter chartable items)).
  assert (Hperm : Permutation sorted (filter chartable items))
    by apply sortStable_perm.
  assert (Hfin : Forall (fun c => exists q, Mapper.RevenueItem.winRate c = Fin q)
                   (filter chartable items)).
  { apply Forall_forall. intros c Hc. apply filter_In in Hc. destruct Hc as [Hc _].
    rewrite Forall_forall in Hok. apply itemOk_winRate. now apply Hok. }
  assert (Hsorted : StronglySorted (fun a b => before b a = false) sorted).
  { apply (sortStable_sorted before
             (fun c => exists q, Mapper.RevenueItem.winRate c = Fin q)).
    - intros a b _ _. apply numGt_asym.
    - intros a b c (x & Ea) (y & Eb) (z & Ec). unfold before.
      rewrite Ea, Eb, Ec. apply numGt_negtrans.
    - exact Hfin. }
  assert (Hbars : Mapper.winRateBars items = map barOf (firstn 10 sorted)) by reflexivity.
  rewrite <- (firstn_skipn 10 sorted) in Hsorted.
  destruct (StronglySorted_app_inv _ _ _ Hsorted) as [S1 C].
  split; [|split].
  - exists (firstn 10 sorted), (skipn 10 sorted).
    split; [rewrite firstn_skipn; now apply Permutation_sym|].
    split; [exact Hbars|]. split.
    + rewrite length_firstn. now rewrite (Permutation_length Hperm).
    + split; [exact S1|]. intros c r Hc Hr. now apply C.
  - rewrite Hbars. apply Forall_forall. intros bar Hbar. apply in_map_iff in Hbar.
    destruct Hbar as (c & <- & Hc).
    assert (Hin : In c (filter chartable items)).
    { apply (Permutation_in _ Hperm). rewrite <- (firstn_skipn 10 sorted).
      apply in_or_app. now left. }
    apply filter_In in Hin. destruct Hin as [Hin Hch].
    rewrite Forall_forall in Hok, Hwon. simpl.
    split; [now apply Nat.leb_le in Hch|]. split; [now apply Hwon|].
    split; [|apply shortName_length].
    now destruct (Hok c Hin) as (_ & _ & P & _).
  - intros item H. simpl. now apply shortName_short.
Qed.

End WinRateChart.

(** ** The older variant *)

Section LegacyItems.
Context {host : Host}.

Lemma legacy_find_key companies ref c :
  find (Legacy.sameIdText ref) companies = Some c ->
  ToString (Company.RecordID c) = ToString ref.
Proof.
  intros F. apply find_some in F. destruct F as [_ F].
  now apply String.eqb_eq in F.
Qed.

Lemma legacy_refersTo companies deal :
  refersTo companies deal
  = hasReference (Deal.AssociatedCompanyIDsPrimary deal)
    && match find (Legacy.sameIdText (Deal.AssociatedCompanyIDsPrimary deal)) companies with
       | Some _ => true
       | None => false
       end.
Proof. unfold refersTo. now rewrite existsb_find. Qed.

Lemma legacy_analysisBody_count companies analysis deal key :
  legacyCount (Legacy.analysisBody companies analysis deal) key
  = legacyCount analysis key + (if filedUnderId companies key deal then 1 else 0).
Proof.
  unfold filedUnderId. rewrite legacy_refersTo. unfold Legacy.analysisBody.
  destruct (hasReference (Deal.AssociatedCompanyIDsPrimary deal)); simpl; [|lia].
  destruct (find _ companies) as [c|] eqn:F; simpl; [|lia].
  rewrite (legacy_find_key _ _ _ F). unfold legacyCount. rewrite lookup_assign.
  destruct (String.eqb (ToString (Deal.AssociatedCompanyIDsPrimary deal)) key) eqn:K;
    [|lia].
  apply String.eqb_eq in K. subst key.
  destruct (lookup _ analysis); simpl; lia.
Qed.

Lemma legacy_loop_count companies deals key :
  forall analysis,
    legacyCount (fold_left (Legacy.analysisBody companies) deals analysis) key
    = legacyCount analysis key
      + List.length (filter (filedUnderId companies key) deals).
Proof.
  induction deals as [|d deals IH]; intros analysis; simpl; [lia|].
  rewrite IH, legacy_analysisBody_count.
  destruct (filedUnderId companies key d); simpl; lia.
Qed.

Lemma legacy_analysisBody_ok companies analysis deal :
  NoDup (map fst analysis) /\ (forall k a, In (k, a) analysis -> legacyAnalysisOk a) ->
  NoDup (map fst (Legacy.analysisBody companies analysis deal))
  /\ (forall k a, In (k, a) (Legacy.analysisBody companies analysis deal) ->
        legacyAnalysisOk a).
Proof.
  intros [ND H]. unfold Legacy.analysisBody.
  destruct (hasReference (Deal.AssociatedCompanyIDsPrimary deal)); [|now split].
  destruct (find _ companies) as [c|]; [|now split].
  split; [now apply assign_NoDup|].
  intros k a Hin. apply In_assign in Hin. destruct Hin as [[_ ->]|Hin]; [|now apply (H k)].
  assert (H0 : forall a0, lookup (ToString (Company.RecordID c)) analysis = Some a0 ->
                 legacyAnalysisOk a0).
  { intros a0 L. apply lookup_In in L. now apply (H _ _ L). }
  unfold legacyAnalysisOk. simpl.
  destruct (lookup (ToString (Company.RecordID c)) analysis) as [a0|]; simpl.
  - destruct (H0 a0 eq_refl) as (W & C & N). rewrite length_app. simpl.
    destruct (Legacy.stageText (Deal.DealStage deal) "won");
      [|destruct (Deal.DealStage deal) as [| | | |s];
        try destruct (nonEmpty s && negb (includes (toLowerCase s) "lost")
                      && negb (includes (toLowerCase s) "won"))];
      lia.
  - destruct (Legacy.stageText (Deal.DealStage deal) "won");
      [|destruct (Deal.DealStage deal) as [| | | |s];
        try destruct (nonEmpty s && negb (includes (toLowerCase s) "lost")
                      && negb (includes (toLowerCase s) "won"))];
      simpl; lia.
Qed.

Lemma legacy_loop_ok companies deals :
  forall analysis,
    NoDup (map fst analysis) /\ (forall k a, In (k, a) analysis -> legacyAnalysisOk a) ->
    NoDup (map fst (fold_left (Legacy.analysisBody companies) deals analysis))
    /\ (forall k a, In (k, a) (fold_left (Legacy.analysisBody companies) deals analysis) ->
          legacyAnalysisOk a).
Proof.
  induction deals as [|d deals IH]; intros analysis H; simpl; [exact H|].
  apply IH. now apply legacy_analysisBody_ok.
Qed.

Lemma accuracyOf_bounds declared variance :
  nanOr (fun v => 0 <= v)%Q variance ->
  nanOr (fun a => 0 <= a /\ a <= 100)%Q (Legacy.accuracyOf declared variance).
Proof.
  unfold Legacy.accuracyOf. rewrite jsGt_zero.
  destruct (numGt (ToNumber declared) (Fin 0%Q)) eqn:G; [|simpl; split; lra].
  apply numGt_zero_pos in G. destruct G as (d & -> & Hd).
  destruct variance as [|v]; simpl; [intros _; exact I|]. intros Hv.
  rewrite (isZero_pos d Hd). simpl.
  assert (Hq : (0 <= v / d)%Q).
  { apply Qle_shift_div_l; [exact Hd|]. now rewrite Qmult_0_l. }
  destruct (Qle_bool 0 (100 - v / d * 100)) eqn:E; simpl.
  - apply Qle_bool_iff in E. split; lra.
  - split; lra.
Qed.

(** X16. Every company the identifier-keyed Revenue Validator emits has a
    calculated revenue above zero, at least one deal, no more won and open
    deals together than deals, and a win rate between 0 and 100; its
    variance is not negative and its accuracy lies between 0 and 100
    whenever they are numbers. Its deal count is the number of deals whose
    reference is resolved and reads as one text, the one its identifier is
    parsed from. *)
Theorem identifier_keyed_items_are_consistent
    (deals : list Deal.t) (companies : list Company.t) (item : Legacy.RevenueItem.t)
    (Hitem : In item (Legacy.revenueValidation deals companies)) :
  Legacy.jsGt (Legacy.RevenueItem.calculatedRevenue item) (VNum (Fin 0%Q)) = true
  /\ 1 <= Legacy.RevenueItem.dealCount item
  /\ Legacy.RevenueItem.wonDeals item + Legacy.RevenueItem.openDeals item
     <= Legacy.RevenueItem.dealCount item
  /\ isPercent (Legacy.RevenueItem.winRate item)
  /\ nanOr (fun v => 0 <= v)%Q (Legacy.RevenueItem.variance item)
  /\ nanOr (fun a => 0 <= a /\ a <= 100)%Q (Legacy.RevenueItem.accuracy item)
  /\ exists key,
       Legacy.RevenueItem.companyId item = parseIntString key
       /\ Legacy.RevenueItem.dealCount item
          = List.length (filter (filedUnderId companies key) deals).
Proof.
  unfold Legacy.revenueValidation in Hitem. apply filter_In in Hitem.
  destruct Hitem as [Hin Hpos]. apply in_map_iff in Hin.
  destruct Hin as ([k a] & <- & Hin).
  destruct (legacy_loop_ok companies deals [])
    as [ND Hall]; [split; [constructor | intros ? ? []]|].
  destruct (Hall k a Hin) as (W & C & N).
  assert (V : nanOr (fun v => 0 <= v)%Q
                (Math_abs (numSub (ToNumber (Legacy.Analysis.declaredRevenue a))
                             (ToNumber (Legacy.Analysis.calculatedRevenue a))))).
  { destruct (numSub _ _) as [|q]; simpl; [exact I | apply Qabs_nonneg]. }
  simpl. split; [exact Hpos|]. split; [exact N|]. split; [exact W|]. split.
  - assert (W' : Legacy.Analysis.wonDeals a <= Legacy.Analysis.dealCount a) by lia.
    pose proof (percentOf_isPercent _ _ W') as P. unfold Mapper.percentOf in P.
    exact P.
  - split; [exact V|]. split; [now apply accuracyOf_bounds|].
    exists k. split; [reflexivity|].
    pose proof (legacy_loop_count companies deals k []) as Cn.
    unfold legacyCount in Cn. rewrite (In_lookup k a _ ND Hin) in Cn. exact Cn.
Qed.




End LegacyItems.

(** ** Semicolon-delimited fields *)

Lemma split_no_separator sep s w :
  In w (split sep s) -> ~ In sep (list_ascii_of_string w).
Proof.
  revert w; induction s as [|c s IH]; intros w; simpl.
  - intros [<-|[]]. intros [].
  - destruct (Ascii.eqb c sep) eqn:E.
    + intros [<-|H]; [intros [] | now apply IH].
    + apply Ascii.eqb_neq in E. destruct (split sep s) as [|w0 ws].
      * intros [<-|[]]. simpl. intros [H|[]]. congruence.
      * intros [<-|H].
        -- simpl. intros [H|H]; [congruence|]. apply (IH w0); [now left | exact H].
        -- apply IH. now right.
Qed.

Lemma split_without_separator sep s :
  ~ In sep (list_ascii_of_string s) -> split sep s = [s].
Proof.
  induction s as [|c s IH]; simpl; [reflexivity|]. intros H.
  destruct (Ascii.eqb c sep) eqn:E.
  - apply Ascii.eqb_eq in E. exfalso. apply H. now left.
  - rewrite IH; [reflexivity|]. intros Hin. apply H. now right.
Qed.

Lemma trimStart_chars s c :
  In c (list_ascii_of_string (trimStart s)) -> In c (list_ascii_of_string s).
Proof.
  induction s as [|d s IH]; simpl; [auto|].
  destruct (isWhite d); [intros H; right; now apply IH | auto].
Qed.

Lemma trimEnd_chars s c :
  In c (list_ascii_of_string (trimEnd s)) -> In c (list_ascii_of_string s).
Proof.
  induction s as [|d s IH]; simpl; [auto|].
  destruct (trimEnd s) as [|e t].
  - destruct (isWhite d); simpl; [intros [] | intros [H|[]]; now left].
  - simpl in *. intros [H|H]; [now left | right; now apply IH].
Qed.

Lemma trimEnd_idempotent s : trimEnd (trimEnd s) = trimEnd s.
Proof.
  induction s as [|c s IH]; simpl; [reflexivity|].
  destruct (trimEnd s) as [|d t] eqn:E.
  - destruct (isWhite c) eqn:W; simpl; [reflexivity | now rewrite W].
  - cbn [trimEnd] in *. now rewrite IH.
Qed.

Lemma trimStart_head s :
  trimStart s = EmptyString
  \/ exists c t, trimStart s = String c t /\ isWhite c = false.
Proof.
  induction s as [|c s IH]; simpl; [now left|].
  destruct (isWhite c) eqn:W; [exact IH | right; now exists c, s].
Qed.

Lemma trim_idempotent s : trim (trim s) = trim s.
Proof.
  unfold trim. destruct (trimStart_head s) as [->|(c & t & -> & W)]; [reflexivity|].
  assert (H : trimStart (trimEnd (String c t)) = trimEnd (String c t)).
  { simpl. destruct (trimEnd t); [rewrite W|]; simpl; now rewrite W. }
  now rewrite H, trimEnd_idempotent.
Qed.

(** X18. The tags read from a semicolon-delimited field are never empty,
    carry no white space at either end and contain no semicolon; a value
    that is not a text has no tag, and a text that is already such a tag is
    its own only tag. *)
Theorem tags_are_trimmed_and_not_empty (raw : JsVal) :
  Forall cleanTag (splitTags raw)
  /\ (isString raw = false -> splitTags raw = [])
  /\ (forall tag, cleanTag tag -> splitTags (VStr tag) = [tag]).
Proof.
  split; [|split].
  - apply Forall_forall. intros tag Hin. unfold splitTags in Hin.
    destruct raw as [| | | |s]; try (now destruct Hin).
    destruct (nonEmpty s); [|now destruct Hin].
    apply filter_In in Hin. destruct Hin as [Hin Hne].
    apply in_map_iff in Hin. destruct Hin as (piece & <- & Hpiece).
    split; [exact Hne|]. split; [apply trim_idempotent|].
    intros Hsemi. apply (split_no_separator ";"%char s piece Hpiece).
    unfold trim in Hsemi. now apply trimStart_chars, trimEnd_chars.
  - destruct raw; try reflexivity. discriminate.
  - intros tag (Hne & Htrim & Hsemi). unfold splitTags. rewrite Hne.
    rewrite (split_without_separator _ _ Hsemi). simpl. now rewrite Htrim, Hne.
Qed.

(** ** The total of the brand revenues *)

Section BrandTotal.
Context {host : Host}.









End BrandTotal.

(** ** The further properties on the example tables *)

Lemma relationships_link_two_members_of_a_group_witness :
  exists r group,
    In r (@Mapper.domainMapping DecimalHost.host [acmeWww; acmeShop] [])
    /\ lookup (Mapper.DomainRelationship.domain r)
         (Mapper.domainGroups [acmeWww; acmeShop]) = Some group
    /\ 2 <= List.length group
    /\ strictEq (Mapper.DomainRelationship.childId r)
         (Mapper.DomainRelationship.parentId r) = false.
Proof.
  assert (Hr : In (Mapper.relationshipOf "acme.com"
                     (@Mapper.withMetrics DecimalHost.host [] acmeWww) acmeShop)
                 (@Mapper.domainMapping DecimalHost.host [acmeWww; acmeShop] []))
    by (vm_compute; left; reflexivity).
  destruct (@relationships_link_two_members_of_a_group DecimalHost.host
              [acmeWww; acmeShop] [] _ Hr)
    as (group & parent & child & L & Hlen & _ & _ & _ & _ & _ & _ & _ & Hid & _).
  eexists. exists group. split; [exact Hr|]. split; [exact L|]. split; assumption.
Defined.









Lemma emitted_lines_are_the_mentions_in_order_witness :
  exists items item,
    @Mapper.revenueValidation DecimalHost.host [shopDeal; acmeDeal; shopDeal] = Ok items
    /\ In item items
    /\ Mapper.RevenueItem.deals item
       = @linesFor DecimalHost.host (Mapper.RevenueItem.companyName item)
           [shopDeal; acmeDeal; shopDeal]
    /\ Mapper.RevenueItem.dealCount item = 2.
Proof.
  destruct (@Mapper.revenueValidation DecimalHost.host [shopDeal; acmeDeal; shopDeal])
    as [[|item rest]|e] eqn:E; try (vm_compute in E; discriminate).
  destruct (@emitted_lines_are_the_mentions_in_order DecimalHost.host
              [shopDeal; acmeDeal; shopDeal] (item :: rest) item E (or_introl eq_refl))
    as (Hlines & _ & _).
  exists (item :: rest), item. split; [reflexivity|]. split; [now left|].
  split; [exact Hlines|]. vm_compute in E. injection E as <- _. reflexivity.
Defined.


Lemma win_rate_chart_shows_the_ten_best_witness :
  exists items,
    @Mapper.revenueValidation DecimalHost.host [shopDeal; shopDeal; shopDeal] = Ok items
    /\ Forall (fun bar => 3 <= Mapper.bar_deals bar
                          /\ Mapper.bar_wonDeals bar <= Mapper.bar_deals bar
                          /\ isPercent (Mapper.bar_winRate bar)
                          /\ String.length (Mapper.bar_name bar) <= 23)
         (Mapper.winRateBars items)
    /\ List.length (Mapper.winRateBars items) = 2.
Proof.
  eexists. split; [vm_compute; reflexivity|]. split; [|reflexivity].
  apply (@win_rate_chart_shows_the_ten_best DecimalHost.host
           [shopDeal; shopDeal; shopDeal]).
  vm_compute. reflexivity.
Defined.

Lemma identifier_keyed_items_are_consistent_witness :
  exists item,
    In item (@Legacy.revenueValidation DecimalHost.host [indebtedDeal] [halfCompany])
    /\ 1 <= Legacy.RevenueItem.dealCount item
    /\ nanOr (fun a => 0 <= a /\ a <= 100)%Q (Legacy.RevenueItem.accuracy item).
Proof.
  destruct (@Legacy.revenueValidation DecimalHost.host [indebtedDeal] [halfCompany])
    as [|item rest] eqn:E; [vm_compute in E; discriminate|].
  exists item. split; [now left|].
  assert (Hin : In item (@Legacy.revenueValidation DecimalHost.host
                           [indebtedDeal] [halfCompany])) by (rewrite E; now left).
  destruct (@identifier_keyed_items_are_consistent DecimalHost.host
              [indebtedDeal] [halfCompany] item Hin)
    as (_ & Hn & _ & _ & _ & Hacc & _).
  split; assumption.
Defined.


Lemma tags_are_trimmed_and_not_empty_witness :
  splitTags (VStr "Acme") = ["Acme"] /\ splitTags (VNum (Fin 7%Q)) = [].
Proof.
  destruct (tags_are_trimmed_and_not_empty (VNum (Fin 7%Q))) as (_ & Hnone & Hone).
  split; [|apply Hnone; reflexivity].
  apply Hone. split; [reflexivity|]. split; [reflexivity|].
  simpl. intros [H|[H|[H|[H|[]]]]]; discriminate.
Defined.

